(** * init_ddk: the marker-delimited section updater and the download guard

    A shallow embedding of [src/init/init_ddk.py].

    - Text is [string].  [_update_file] is given the target file as
      Python's text layer hands it to the script: the file is opened with
      universal newlines, so a carriage return, alone or before a line feed,
      is read as a line feed.  What is written is stored as it is given.
      [as_read] makes the text read from the text stored; a call that
      follows another one is given [as_read] of what the first one left.
    - [lines_of] is the iteration [for line in input_file]: every line keeps
      its terminating newline, only the last one may lack it.
    - The loop of [_update_file] is a fold of [loop_body] over those lines,
      on a record holding the three flags and the calls of
      [output_file.write].
    - The file system is a finite map from paths to contents; [_update_file]
      is the sequence of operations the method performs on it.
    - [_get_url] and [_download] are written over an arbitrary
      implementation of [str.format], [urllib.parse.quote] and
      [subprocess.check_call]. *)

From stdpp Require Import base list strings gmap.
From Stdlib Require Import Ascii.

(** ** Text *)

Module Text.

(** The line feed, ["\n"] in the source. *)
Definition nl_char : ascii := "010"%char.
Definition nl : string := String nl_char "".

Definition is_nl (c : ascii) : bool := bool_decide (c = nl_char).

(** [for line in input_file]: the lines of a text, each with its line feed. *)
Fixpoint lines_of (s : string) : list string :=
  match s with
  | "" => []
  | String c s' =>
      if is_nl c then String c "" :: lines_of s'
      else match lines_of s' with
           | [] => [String c ""]
           | l :: ls => String c l :: ls
           end
  end.

(** The text made of pieces written one after the other. *)
Definition text_of (ws : list string) : string := foldr String.app "" ws.

(** [complete s]: [s] is empty or ends with a line feed. *)
Fixpoint complete (s : string) : bool :=
  match s with
  | "" => true
  | String c "" => is_nl c
  | String _ s' => complete s'
  end.

(** [no_nl s]: no line feed occurs in [s]. *)
Fixpoint no_nl (s : string) : bool :=
  match s with
  | "" => true
  | String c s' => negb (is_nl c) && no_nl s'
  end.

(** [a in s] on Python strings: [a] occurs in [s] as a substring. *)
Fixpoint contains (a s : string) : bool :=
  String.prefix a s ||
  match s with
  | "" => false
  | String _ s' => contains a s'
  end.

(** Truthiness of an optional string: [None] and [""] are false. *)
Definition truthy (o : option string) : bool :=
  match o with
  | None => false
  | Some s => negb (bool_decide (s = ""))
  end.

End Text.
Import Text.

(** ** Constants of the module *)

Definition _FILE_MARKER_BEGIN : string :=
  "### GENERATED SECTION - DO NOT MODIFY - BEGIN ###" +:+ nl.
Definition _FILE_MARKER_END : string :=
  "### GENERATED SECTION - DO NOT MODIFY - END ###" +:+ nl.

(** The two tests of the loop, [_FILE_MARKER_BEGIN in line] and
    [_FILE_MARKER_END in line]. *)
Definition is_begin (line : string) : bool := contains _FILE_MARKER_BEGIN line.
Definition is_end (line : string) : bool := contains _FILE_MARKER_END line.

(** ** The loop of [_update_file] *)

Record scan_state := ScanState {
  add_content : bool;
  skip_line : bool;
  update_written : bool;
  output_file : list string  (* the arguments of [output_file.write], in order *)
}.

Definition write (s : string) (st : scan_state) : scan_state :=
  ScanState (add_content st) (skip_line st) (update_written st)
            (output_file st ++ [s]).

Definition initial_state : scan_state := ScanState false false false [].

(** One iteration of [for line in input_file]. *)
Definition loop_body (update : string) (st : scan_state) (line : string)
  : scan_state :=
  let st1 :=
    if add_content st then
      let w := write (update +:+ nl) (write _FILE_MARKER_BEGIN st) in
      ScanState false (skip_line w) true (output_file w)
    else st in
  let st2 :=
    if is_end line
    then ScanState (add_content st1) false (update_written st1) (output_file st1)
    else st1 in
  let st3 :=
    if is_begin line
    then ScanState true true (update_written st2) (output_file st2)
    else st2 in
  if negb (skip_line st3) then write line st3 else st3.

(** The statements after the loop. *)
Definition finish (update : string) (st : scan_state) : scan_state :=
  if negb (update_written st) then
    write _FILE_MARKER_END
      (write (update +:+ nl) (write _FILE_MARKER_BEGIN st))
  else st.

(** The writes of a whole run over the lines of the input. *)
Definition scan (update : string) (lines : list string) : list string :=
  output_file (finish update (foldl (loop_body update) initial_state lines)).

(** The content of the temporary file when it is closed, from the content
    of the input file. *)
Definition updated_text (input update : string) : string :=
  text_of (scan update (lines_of input)).

(** The same run as a function of the three flags alone: the pieces written
    from a state with these flags over the remaining lines, the statements
    after the loop included.  [scan_emitted] relates it to [scan]. *)
Fixpoint emitted (update : string) (add skip written : bool)
    (lines : list string) : list string :=
  match lines with
  | [] =>
      if written then []
      else [_FILE_MARKER_BEGIN; update +:+ nl; _FILE_MARKER_END]
  | line :: rest =>
      let skip' :=
        if is_begin line then true else if is_end line then false else skip in
      (if add then [_FILE_MARKER_BEGIN; update +:+ nl] else []) ++
      (if skip' then [] else [line]) ++
      emitted update (is_begin line) skip' (written || add) rest
  end.

(** ** Vocabulary of the properties *)

(** A single line: not empty, and a line feed only as its last character. *)
Fixpoint one_line (s : string) : bool :=
  match s with
  | "" => false
  | String c s' =>
      if is_nl c then bool_decide (s' = "")
      else bool_decide (s' = "") || one_line s'
  end.

(** Every piece but the last one ends with a line feed. *)
Fixpoint joinable (cs : list string) : bool :=
  match cs with
  | [] => true
  | c :: cs' =>
      match cs' with
      | [] => true
      | _ => complete c && joinable cs'
      end
  end.

Definition begin_free (ls : list string) : bool :=
  forallb (λ l, negb (is_begin l)) ls.
Definition marker_free (ls : list string) : bool :=
  forallb (λ l, negb (is_begin l) && negb (is_end l)) ls.
Definition has_begin (ls : list string) : bool := existsb is_begin ls.

Definition count_begin (ls : list string) : nat :=
  length (filter (λ l, is_begin l = true) ls).
Definition count_end (ls : list string) : nat :=
  length (filter (λ l, is_end l = true) ls).

(** Lines of the input that the loop copies, from a state where
    [skip_line] is [skipping]: the lines written by the last statement of
    the loop body, but for the end-marker line that clears [skip_line].
    This follows the flag of the loop, so the lines after a begin-marker
    line that is never closed are not among them; [outside_sections],
    below, is the notion of the claims. *)
Fixpoint copied (skipping : bool) (ls : list string) : list string :=
  match ls with
  | [] => []
  | l :: ls' =>
      if is_begin l then copied true ls'
      else if skipping then copied (negb (is_end l)) ls'
      else l :: copied false ls'
  end.

(** ** The file system and [_update_file] *)

(** The operations [_update_file] performs on the file system, in the order
    of the source. *)
Inductive fs_op :=
| OpenRead (path : string)      (* [open(path, "r")] *)
| OpenAppend (path : string)    (* [open(path, "a+")]: creates a missing file *)
| MkTemp (tmp : string)         (* [tempfile.NamedTemporaryFile(mode="w", delete=False)] *)
| WriteTo (tmp data : string)   (* [output_file.write(data)] *)
| Move (src dst : string).      (* [shutil.move(src, dst)] *)

Definition apply_op (σ : gmap string string) (op : fs_op) : gmap string string :=
  match op with
  | OpenRead _ => σ
  | OpenAppend path =>
      match σ !! path with
      | Some _ => σ
      | None => <[path := ""]> σ
      end
  | MkTemp tmp => <[tmp := ""]> σ
  | WriteTo tmp data => alter (λ c, c +:+ data) tmp σ
  | Move src dst =>
      match σ !! src with
      | Some c => <[dst := c]> (delete src σ)
      | None => σ
      end
  end.

(** What [for line in input_file] reads: the content of an existing file,
    nothing from a file that [open(path, "a+")] has just created.  The map
    holds for [path] the text as it is read; [as_read], below, makes it from
    the text as it is stored. *)
Definition file_text (σ : gmap string string) (path : string) : string :=
  default "" (σ !! path).

(** The operations of one call; [tmp] is the name chosen by
    [NamedTemporaryFile]. *)
Definition _update_file_ops (tmp path update : string)
    (σ : gmap string string) : list fs_op :=
  (if bool_decide (is_Some (σ !! path)) then OpenRead path else OpenAppend path)
  :: MkTemp tmp
  :: (WriteTo tmp <$> scan update (lines_of (file_text σ path)))
  ++ [Move tmp path].

Definition _update_file (tmp path update : string)
    (σ : gmap string string) : gmap string string :=
  foldl apply_op σ (_update_file_ops tmp path update σ).

(** A call stopped after its first [k] operations. *)
Definition interrupted (k : nat) (tmp path update : string)
    (σ : gmap string string) : gmap string string :=
  foldl apply_op σ (take k (_update_file_ops tmp path update σ)).

(** Operations that touch the temporary file only. *)
Definition on_tmp (tmp : string) (op : fs_op) : Prop :=
  match op with
  | OpenRead _ => True
  | MkTemp t | WriteTo t _ => t = tmp
  | OpenAppend _ | Move _ _ => False
  end.

(** ** [_get_url] and [_download] *)

Inductive exn :=
| AttributeError | KeyError | IndexError | ValueError | TypeError
| CalledProcessError | Unmodelled.

Inductive result (A : Type) :=
| Return (a : A)
| Raise (e : exn).
Arguments Return {A} a.
Arguments Raise {A} e.

(** The library functions the two methods call.  [str_format fmt build_id
    build_target filename] is [fmt.format(build_id=..., build_target=...,
    filename=...)]; [quote] is [urllib.parse.quote(_, safe="")]; [check_call]
    is [subprocess.check_call]; [script_dir] is
    [pathlib.Path(__file__).parent]. *)
Class Runtime := {
  str_format : string → option string → option string → string → result string;
  quote : string → string;
  check_call : list string → result unit;
  script_dir : string
}.

Record KleafProjectSetter := {
  build_id : option string;
  build_target : option string;
  ddk_workspace : option string;
  local : bool;
  kleaf_repo : option string;
  prebuilts_dir : option string;
  url_fmt : option string
}.

Definition _FAKE_BUILD_ID : string := "__FAKE_BUILD_NUMBER_PLACEHOLDER__".

Definition _get_url `{Runtime} (self : KleafProjectSetter)
    (remote_filename : string) : result (option string) :=
  match url_fmt self with
  | None => Raise AttributeError
  | Some fmt =>
      match str_format fmt (build_id self) (build_target self)
              (quote remote_filename) with
      | Raise e => Raise e
      | Return url =>
          match str_format fmt (Some _FAKE_BUILD_ID) (build_target self)
                  (quote remote_filename) with
          | Raise e => Raise e
          | Return url_with_fake_id =>
              if negb (truthy (build_id self))
                 && negb (bool_decide (url = url_with_fake_id))
              then Return None
              else Return (Some url)
          end
      end
  end.

(** What a call of [_download] does: the records passed to [logging.error],
    the commands passed to [subprocess.check_call], and how it ends. *)
Record effects := Effects {
  errors_logged : list string;
  commands_run : list (list string);
  ending : result unit
}.

Definition _download `{Runtime} (self : KleafProjectSetter)
    (remote_filename out_file_name : string) : effects :=
  if negb (truthy (url_fmt self)) then
    Effects ["Unable to download file " +:+ remote_filename
             +:+ " because --url_fmt was not set."] [] (Return ())
  else
    match _get_url self remote_filename with
    | Raise e => Effects [] [] (Raise e)
    | Return url =>
        if negb (truthy url) then
          Effects ["Unable to download " +:+ remote_filename
                   +:+ " file because --build_id is missing."] [] (Return ())
        else
          let command :=
            ["python3"; script_dir +:+ "/init_download.py";
             default "" url; out_file_name] in
          Effects [] [command] (check_call command)
    end.

(** *** An implementation of the interface, to run the definitions

    [format_plain] covers format strings made of text, the escapes and
    plain fields [{name}]; a field with a conversion, a format specification,
    an attribute or an index is reported as [Unmodelled].  The properties
    below are proved for every implementation and do not depend on it. *)

Definition py_str (o : option string) : string := default "None" o.

Definition is_char (k : string) (c : ascii) : bool :=
  bool_decide (String c "" = k).

Definition plain_name (name : string) : bool :=
  negb (contains "!" name || contains ":" name || contains "." name
        || contains "[" name).

Fixpoint all_digits (s : string) : bool :=
  match s with
  | "" => true
  | String c rest =>
      (48 <=? nat_of_ascii c) && (nat_of_ascii c <=? 57) && all_digits rest
  end.

(** The call passes keyword arguments only: an empty or numeric field asks
    for a positional argument that is not there. *)
Definition lookup_field (build_id build_target : option string)
    (filename name : string) : result string :=
  if bool_decide (name = "build_id") then Return (py_str build_id)
  else if bool_decide (name = "build_target") then Return (py_str build_target)
  else if bool_decide (name = "filename") then Return filename
  else if negb (plain_name name) then Raise Unmodelled
  else if all_digits name then Raise IndexError
  else Raise KeyError.

Definition prepend (s : string) (r : result string) : result string :=
  match r with
  | Return t => Return (s +:+ t)
  | Raise e => Raise e
  end.

Fixpoint format_go (build_id build_target : option string) (filename : string)
    (field : option string) (fmt : string) : result string :=
  match field, fmt with
  | None, "" => Return ""
  | None, String c rest =>
      if is_char "{" c then
        match rest with
        | String c' rest' =>
            if is_char "{" c'
            then prepend "{" (format_go build_id build_target filename None rest')
            else format_go build_id build_target filename (Some "") rest
        | "" => Raise ValueError
        end
      else if is_char "}" c then
        match rest with
        | String c' rest' =>
            if is_char "}" c'
            then prepend "}" (format_go build_id build_target filename None rest')
            else Raise ValueError
        | "" => Raise ValueError
        end
      else prepend (String c "")
             (format_go build_id build_target filename None rest)
  | Some name, "" => Raise ValueError
  | Some name, String c rest =>
      if is_char "}" c then
        match lookup_field build_id build_target filename name with
        | Return v =>
            prepend v (format_go build_id build_target filename None rest)
        | Raise e => Raise e
        end
      else if is_char "{" c then Raise ValueError
      else format_go build_id build_target filename
             (Some (name +:+ String c "")) rest
  end.

Definition format_plain (fmt : string) (build_id build_target : option string)
    (filename : string) : result string :=
  format_go build_id build_target filename None fmt.

(** Characters [urllib.parse.quote] never escapes: letters, digits and
    [_.-~]. *)
Definition unreserved (c : ascii) : bool :=
  let n := nat_of_ascii c in
  (65 <=? n) && (n <=? 90) || (97 <=? n) && (n <=? 122)
  || (48 <=? n) && (n <=? 57)
  || is_char "_" c || is_char "." c || is_char "-" c || is_char "~" c.

Definition hex_digit (n : nat) : ascii :=
  if n <? 10 then ascii_of_nat (48 + n) else ascii_of_nat (55 + n).

Fixpoint quote_all (s : string) : string :=
  match s with
  | "" => ""
  | String c rest =>
      if unreserved c then String c (quote_all rest)
      else
        let n := nat_of_ascii c in
        String "%" (String (hex_digit (n / 16))
                      (String (hex_digit (n mod 16)) (quote_all rest)))
  end.

Definition plain_runtime : Runtime := {|
  str_format := format_plain;
  quote := quote_all;
  check_call := λ _, Return ();
  script_dir := "/build/kernel/init"
|}.

(** A setter as the command line builds it when [--build_id] is not given. *)
Definition setter_without_id (fmt : option string) : KleafProjectSetter := {|
  build_id := None; build_target := Some "kernel_aarch64";
  ddk_workspace := None; local := false; kleaf_repo := None;
  prebuilts_dir := None; url_fmt := fmt
|}.

(** ** Paths

    [pathlib] paths on a POSIX system, as the script uses them: a root
    ([""] for a relative path, ["/"], or ["//"] when the text starts with
    exactly two slashes) and the names after it.  The fields of
    [KleafProjectSetter] hold the texts given on the command line;
    [Path_of] is [pathlib.Path(text)]. *)

Record PurePath := Path {
  path_root : string;
  path_names : list string
}.

(** [s.split(sep)] for a separator of one character. *)
Fixpoint split_on (sep : ascii) (s : string) : list string :=
  match s with
  | "" => [""]
  | String c rest =>
      if bool_decide (c = sep) then "" :: split_on sep rest
      else match split_on sep rest with
           | [] => [String c ""]
           | x :: xs => String c x :: xs
           end
  end.

Definition slash : ascii := "047"%char.

Definition parse_root (s : string) : string :=
  match s with
  | String c1 (String c2 (String c3 _)) =>
      if bool_decide (c1 = slash) then
        if bool_decide (c2 = slash) then
          if bool_decide (c3 = slash) then "/" else "//"
        else "/"
      else ""
  | String c1 (String c2 "") =>
      if bool_decide (c1 = slash) then
        if bool_decide (c2 = slash) then "//" else "/"
      else ""
  | String c1 "" => if bool_decide (c1 = slash) then "/" else ""
  | "" => ""
  end.

Definition Path_of (s : string) : PurePath :=
  Path (parse_root s)
       (filter (λ x, x ≠ "" ∧ x ≠ ".") (split_on slash s)).

Definition is_absolute (p : PurePath) : bool :=
  negb (bool_decide (path_root p = "")).

(** [a / b] *)
Definition joinpath (a b : PurePath) : PurePath :=
  if is_absolute b then b
  else Path (path_root a) (path_names a ++ path_names b).

(** [str(p)] *)
Definition path_str (p : PurePath) : string :=
  if is_absolute p then path_root p +:+ String.concat "/" (path_names p)
  else if path_names p is [] then "." else String.concat "/" (path_names p).

(** [p.relative_to(other)]: [other] must be [p] or one of its parents. *)
Definition relative_to (p other : PurePath) : result PurePath :=
  if bool_decide (path_root p = path_root other)
     && bool_decide (path_names other `prefix_of` path_names p)
  then Return (Path "" (drop (length (path_names other)) (path_names p)))
  else Raise ValueError.

(** [abs_path], the [type] of the path options of the command line. *)
Definition abs_path (s : string) : result PurePath :=
  if is_absolute (Path_of s) then Return (Path_of s) else Raise ValueError.

(** ** The generated files *)

Inductive level := INFO | WARNING.

(** What a method does: its log records, the files it leaves, and how it
    ends. *)
Record outcome := Outcome {
  logged : list (level * string);
  files : gmap string string;
  finished : result unit
}.

Definition _DEVICE_BAZELRC : string := "device.bazelrc".
Definition _MODULE_BAZEL_FILE : string := "MODULE.bazel".

(** [_try_rel_workspace]: the log records and the value returned. *)
Definition _try_rel_workspace (self : KleafProjectSetter) (p : PurePath)
  : list (level * string) * result PurePath :=
  match ddk_workspace self with
  | None => ([], Raise TypeError)
  | Some w =>
      match relative_to p (Path_of w) with
      | Return r => ([], Return r)
      | Raise _ =>
          ([(WARNING, "Path " +:+ path_str p
                      +:+ " is not relative to DDK workspace "
                      +:+ path_str (Path_of w)
                      +:+ ", using absolute path.")],
           Return p)
      end
  end.

(** The record [_update_file] logs before it opens the file. *)
Definition _update_file_info (p : PurePath) (σ : gmap string string)
  : level * string :=
  if bool_decide (is_Some (σ !! path_str p))
  then (INFO, "Updating file " +:+ path_str p +:+ ".")
  else (INFO, "Creating file " +:+ path_str p +:+ ".").

(** The text [_generate_bazelrc] passes to [_update_file]: the f-string
    after [textwrap.dedent], for a path text without line feed. *)
Definition bazelrc_content (kleaf_repo : PurePath) : string :=
  "common --config=internet" +:+ nl
  +:+ "common --registry=file://" +:+ path_str kleaf_repo
  +:+ "/external/bazelbuild-bazel-central-registry" +:+ nl.

Definition _generate_bazelrc (tmp : string) (self : KleafProjectSetter)
    (σ : gmap string string) : outcome :=
  match ddk_workspace self, kleaf_repo self with
  | Some w, Some k =>
      let bazelrc := joinpath (Path_of w) (Path_of _DEVICE_BAZELRC) in
      match _try_rel_workspace self (Path_of k) with
      | (logs, Return rel) =>
          let kleaf_repo :=
            if is_absolute rel then rel
            else joinpath (Path_of "%workspace%") rel in
          Outcome (logs ++ [_update_file_info bazelrc σ])
            (_update_file tmp (path_str bazelrc) (bazelrc_content kleaf_repo) σ)
            (Return ())
      | (logs, Raise e) => Outcome logs σ (Raise e)
      end
  | _, _ => Outcome [] σ (Return ())
  end.

(** The double quote. *)
Definition dq : string := String "034"%char "".

(** [_KLEAF_DEPENDENCY_TEMPLATE.format(kleaf_repo_relative=...)] *)
Definition kleaf_dependency (kleaf_repo_relative : string) : string :=
  dq +:+ dq +:+ dq +:+ "Kleaf: Build Android kernels with Bazel."
    +:+ dq +:+ dq +:+ dq +:+ nl
  +:+ "bazel_dep(name = " +:+ dq +:+ "kleaf" +:+ dq +:+ ")" +:+ nl
  +:+ "local_path_override(" +:+ nl
  +:+ "    module_name = " +:+ dq +:+ "kleaf" +:+ dq +:+ "," +:+ nl
  +:+ "    path = " +:+ dq +:+ kleaf_repo_relative +:+ dq +:+ "," +:+ nl
  +:+ ")" +:+ nl.

(** [_LOCAL_PREBUILTS_CONTENT_TEMPLATE.format(download_configs=...,
    prebuilts_dir_relative=...)] *)
Definition local_prebuilts (download_configs prebuilts_dir_relative : string)
  : string :=
  "kernel_prebuilt_ext = use_extension(" +:+ nl
  +:+ "    " +:+ dq +:+ "@kleaf//build/kernel/kleaf:kernel_prebuilt_ext.bzl"
    +:+ dq +:+ "," +:+ nl
  +:+ "    " +:+ dq +:+ "kernel_prebuilt_ext" +:+ dq +:+ "," +:+ nl
  +:+ ")" +:+ nl
  +:+ "kernel_prebuilt_ext.declare_kernel_prebuilts(" +:+ nl
  +:+ "    name = " +:+ dq +:+ "gki_prebuilts" +:+ dq +:+ "," +:+ nl
  +:+ "    download_configs = " +:+ download_configs +:+ "," +:+ nl
  +:+ "    local_artifact_path = " +:+ dq +:+ prebuilts_dir_relative +:+ dq
    +:+ "," +:+ nl
  +:+ ")" +:+ nl
  +:+ "use_repo(kernel_prebuilt_ext, " +:+ dq +:+ "gki_prebuilts" +:+ dq
    +:+ ")" +:+ nl.

(** [_read_download_configs]: the file [download_configs.json] of the
    prebuilts directory, read, parsed, written again without spaces and
    quoted by [repr]; opening or parsing can raise. *)
Class ConfigReader := {
  read_download_configs : PurePath → result string
}.

Definition _generate_module_bazel `{ConfigReader} (tmp : string)
    (self : KleafProjectSetter) (σ : gmap string string) : outcome :=
  match ddk_workspace self with
  | None => Outcome [] σ (Return ())
  | Some w =>
      let module_bazel := joinpath (Path_of w) (Path_of _MODULE_BAZEL_FILE) in
      let after_kleaf : list (level * string) * result string :=
        match kleaf_repo self with
        | None => ([], Return "")
        | Some k =>
            match _try_rel_workspace self (Path_of k) with
            | (logs, Return rel) => (logs, Return (kleaf_dependency (path_str rel)))
            | (logs, Raise e) => (logs, Raise e)
            end
        end in
      let after_prebuilts : list (level * string) * result string :=
        match after_kleaf with
        | (logs, Raise e) => (logs, Raise e)
        | (logs, Return content) =>
            match prebuilts_dir self with
            | None => (logs, Return content)
            | Some d =>
                match read_download_configs
                        (joinpath (Path_of d) (Path_of "download_configs.json")) with
                | Raise e => (logs, Raise e)
                | Return configs =>
                    match _try_rel_workspace self (Path_of d) with
                    | (logs', Return rel) =>
                        (logs ++ logs',
                         Return (content +:+ nl
                                 +:+ local_prebuilts configs (path_str rel)))
                    | (logs', Raise e) => (logs ++ logs', Raise e)
                    end
                end
            end
        end in
      match after_prebuilts with
      | (logs, Raise e) => Outcome logs σ (Raise e)
      | (logs, Return content) =>
          if bool_decide (content = "") then
            Outcome (logs ++ [(INFO, "Nothing to update in "
                                      +:+ path_str module_bazel)])
              σ (Return ())
          else
            Outcome (logs ++ [_update_file_info module_bazel σ])
              (_update_file tmp (path_str module_bazel) content σ)
              (Return ())
      end
  end.

(** Two readers to run the definitions: one whose file cannot be opened
    (the exception, an [OSError], is not one the model names), and one that
    reads an empty configuration. *)
Definition no_config : ConfigReader :=
  {| read_download_configs := λ _, Raise Unmodelled |}.
Definition one_config : ConfigReader :=
  {| read_download_configs := λ _, Return "'{}'" |}.

(** A setter with the three directories and nothing else. *)
Definition setter_with_dirs (w k d : option string) : KleafProjectSetter := {|
  build_id := None; build_target := Some "kernel_aarch64";
  ddk_workspace := w; local := false; kleaf_repo := k;
  prebuilts_dir := d; url_fmt := None
|}.

(** ** Vocabulary for the generated texts *)

(** The text made of lines given without their line feed. *)
Definition unlines (bodies : list string) : string :=
  text_of ((λ b, b +:+ nl) <$> bodies).

(** [s] ends with the character [#], as both markers do before their line
    feed. *)
Fixpoint ends_with_hash (s : string) : bool :=
  match s with
  | "" => false
  | String c "" => bool_decide (c = "#"%char)
  | String _ s' => ends_with_hash s'
  end.

(** The lines of the two templates, without their line feeds. *)
Definition kleaf_lines (kleaf_repo_relative : string) : list string :=
  [dq +:+ dq +:+ dq +:+ "Kleaf: Build Android kernels with Bazel."
     +:+ dq +:+ dq +:+ dq;
   "bazel_dep(name = " +:+ dq +:+ "kleaf" +:+ dq +:+ ")";
   "local_path_override(";
   "    module_name = " +:+ dq +:+ "kleaf" +:+ dq +:+ ",";
   "    path = " +:+ dq +:+ kleaf_repo_relative +:+ dq +:+ ",";
   ")"].

Definition prebuilts_lines (download_configs prebuilts_dir_relative : string)
  : list string :=
  ["kernel_prebuilt_ext = use_extension(";
   "    " +:+ dq +:+ "@kleaf//build/kernel/kleaf:kernel_prebuilt_ext.bzl"
     +:+ dq +:+ ",";
   "    " +:+ dq +:+ "kernel_prebuilt_ext" +:+ dq +:+ ",";
   ")";
   "kernel_prebuilt_ext.declare_kernel_prebuilts(";
   "    name = " +:+ dq +:+ "gki_prebuilts" +:+ dq +:+ ",";
   "    download_configs = " +:+ download_configs +:+ ",";
   "    local_artifact_path = " +:+ dq +:+ prebuilts_dir_relative +:+ dq
     +:+ ",";
   ")";
   "use_repo(kernel_prebuilt_ext, " +:+ dq +:+ "gki_prebuilts" +:+ dq
     +:+ ")"].

(** No line feed in the root or in a name of the path. *)
Definition path_no_nl (p : PurePath) : Prop :=
  no_nl (path_root p) = true ∧ Forall (λ x, no_nl x = true) (path_names p).

(** ** Reading back what was written

    [open(path, "r")] reads with universal newlines: a carriage return
    followed by a line feed, and a carriage return alone, are handed over as
    one line feed.  The temporary file is written as it is given.  So a call
    that follows another one reads [universal_newlines] of what was
    written. *)

Definition cr_char : ascii := "013"%char.
Definition is_cr (c : ascii) : bool := bool_decide (c = cr_char).

Fixpoint all_chars (P : ascii → bool) (s : string) : bool :=
  match s with
  | "" => true
  | String c s' => P c && all_chars P s'
  end.

(** No carriage return occurs in [s]. *)
Definition no_cr (s : string) : bool := all_chars (λ c, negb (is_cr c)) s.

Definition starts_with_nl (s : string) : bool :=
  match s with
  | String c _ => is_nl c
  | "" => false
  end.

Fixpoint universal_newlines (s : string) : string :=
  match s with
  | "" => ""
  | String c rest =>
      if is_cr c then
        if starts_with_nl rest then universal_newlines rest
        else String nl_char (universal_newlines rest)
      else String c (universal_newlines rest)
  end.

(** The file system as a call that opens [path] for reading sees it. *)
Definition as_read (path : string) (σ : gmap string string)
  : gmap string string :=
  alter universal_newlines path σ.

(** No carriage return in the root or in a name of the path. *)
Definition path_no_cr (p : PurePath) : Prop :=
  no_cr (path_root p) = true ∧ Forall (λ x, no_cr x = true) (path_names p).

(** ** The lines outside the sections, from the words of the claim

    A marker-delimited section is a begin-marker line, the first
    end-marker line after it, and the lines between them.  A begin-marker
    line with no end-marker line after it delimits nothing: it and the lines
    after it are outside every section. *)

Definition has_end (ls : list string) : bool := existsb is_end ls.

Fixpoint outside_sections (inside : bool) (ls : list string) : list string :=
  match ls with
  | [] => []
  | l :: rest =>
      if inside then
        if is_end l then outside_sections false rest
        else outside_sections true rest
      else if is_begin l && has_end rest then outside_sections true rest
      else l :: outside_sections false rest
  end.

(** Every begin-marker line is followed, later, by an end-marker line. *)
Fixpoint all_closed (ls : list string) : bool :=
  match ls with
  | [] => true
  | l :: rest => (negb (is_begin l) || has_end rest) && all_closed rest
  end.

(** ** A second implementation of the interface, with indexed fields

    [format_indexed] covers, beside the plain fields, a field
    [{name[i]}] with a decimal index: the character [i] of the argument.
    Indexing [None] raises [TypeError], an index past the end raises
    [IndexError]. *)

Fixpoint split_bracket (s : string) : string * option string :=
  match s with
  | "" => ("", None)
  | String c rest =>
      if is_char "[" c then ("", Some rest)
      else let '(base, index) := split_bracket rest in (String c base, index)
  end.

Fixpoint decimal (acc : nat) (s : string) : option nat :=
  match s with
  | "" => None
  | String c rest =>
      let n := nat_of_ascii c in
      if (48 <=? n) && (n <=? 57) then
        match rest with
        | "" => Some (10 * acc + (n - 48))
        | _ => decimal (10 * acc + (n - 48)) rest
        end
      else None
  end.

(** The text between the bracket and the end of the field, [i]] for an
    index [i]. *)
Definition index_of (after_bracket : string) : option nat :=
  match split_on "]"%char after_bracket with
  | [digits; ""] => decimal 0 digits
  | _ => None
  end.

Definition argument (build_id build_target : option string)
    (filename name : string) : result (option string) :=
  if bool_decide (name = "build_id") then Return build_id
  else if bool_decide (name = "build_target") then Return build_target
  else if bool_decide (name = "filename") then Return (Some filename)
  else if negb (plain_name name) then Raise Unmodelled
  else if all_digits name then Raise IndexError
  else Raise KeyError.

Definition lookup_indexed (build_id build_target : option string)
    (filename name : string) : result string :=
  match split_bracket name with
  | (_, None) => lookup_field build_id build_target filename name
  | (base, Some after) =>
      match argument build_id build_target filename base with
      | Raise e => Raise e
      | Return value =>
          match index_of after with
          | None => Raise Unmodelled
          | Some i =>
              match value with
              | None => Raise TypeError
              | Some v =>
                  match String.get i v with
                  | Some c => Return (String c "")
                  | None => Raise IndexError
                  end
              end
          end
      end
  end.

Fixpoint format_go_indexed (build_id build_target : option string)
    (filename : string) (field : option string) (fmt : string)
  : result string :=
  match field, fmt with
  | None, "" => Return ""
  | None, String c rest =>
      if is_char "{" c then
        match rest with
        | String c' rest' =>
            if is_char "{" c'
            then prepend "{" (format_go_indexed build_id build_target filename
                                None rest')
            else format_go_indexed build_id build_target filename (Some "") rest
        | "" => Raise ValueError
        end
      else if is_char "}" c then
        match rest with
        | String c' rest' =>
            if is_char "}" c'
            then prepend "}" (format_go_indexed build_id build_target filename
                                None rest')
            else Raise ValueError
        | "" => Raise ValueError
        end
      else prepend (String c "")
             (format_go_indexed build_id build_target filename None rest)
  | Some name, "" => Raise ValueError
  | Some name, String c rest =>
      if is_char "}" c then
        match lookup_indexed build_id build_target filename name with
        | Return v =>
            prepend v (format_go_indexed build_id build_target filename
                         None rest)
        | Raise e => Raise e
        end
      else if is_char "{" c then Raise ValueError
      else format_go_indexed build_id build_target filename
             (Some (name +:+ String c "")) rest
  end.

Definition format_indexed (fmt : string) (build_id build_target : option string)
    (filename : string) : result string :=
  format_go_indexed build_id build_target filename None fmt.

Definition indexed_runtime : Runtime := {|
  str_format := format_indexed;
  quote := quote_all;
  check_call := λ _, Return ();
  script_dir := "/build/kernel/init"
|}.

(** ** Basic facts on text *)

Section text_facts.
Implicit Types (s t a b : string) (c : ascii) (ls cs : list string).

Lemma str_app_cons c s t : String c s +:+ t = String c (s +:+ t).
Proof. reflexivity. Qed.

Lemma str_app_nil_l s : "" +:+ s = s.
Proof. reflexivity. Qed.

Lemma str_app_nil_r s : s +:+ "" = s.
Proof. induction s as [|c s IH]; [done|]. by rewrite str_app_cons, IH. Qed.

Lemma str_app_assoc s t a : (s +:+ t) +:+ a = s +:+ t +:+ a.
Proof. induction s as [|c s IH]; [done|]. by rewrite !str_app_cons, IH. Qed.

Lemma str_app_length s t : String.length (s +:+ t) = String.length s + String.length t.
Proof. induction s as [|c s IH]; [done|]. rewrite str_app_cons. simpl. by rewrite IH. Qed.

Lemma is_nl_true c : is_nl c = true ↔ c = nl_char.
Proof. unfold is_nl. by rewrite bool_decide_eq_true. Qed.

Lemma text_of_app cs1 cs2 : text_of (cs1 ++ cs2) = text_of cs1 +:+ text_of cs2.
Proof.
  induction cs1 as [|x cs1 IH]; [done|].
  cbn [app text_of foldr]. fold (text_of (cs1 ++ cs2)) (text_of cs1).
  by rewrite IH, str_app_assoc.
Qed.

Lemma text_of_cons x cs : text_of (x :: cs) = x +:+ text_of cs.
Proof. reflexivity. Qed.

Lemma text_of_lines_of s : text_of (lines_of s) = s.
Proof.
  induction s as [|c s IH]; [done|].
  cbn [lines_of]. destruct (is_nl c).
  - rewrite text_of_cons, IH. reflexivity.
  - destruct (lines_of s) as [|l ls].
    + cbn in IH. subst s. reflexivity.
    + rewrite text_of_cons in *. rewrite str_app_cons. by rewrite IH.
Qed.
End text_facts.

(** ** Lines *)

Section lines_facts.
Implicit Types (s t a b : string) (c : ascii) (ls cs : list string).

Lemma complete_cons c s :
  complete (String c s) = if s is "" then is_nl c else complete s.
Proof. by destruct s. Qed.

Lemma complete_app s t : complete t = true → t ≠ "" → complete (s +:+ t) = true.
Proof.
  intros Ht Hne. induction s as [|c s IH]; [done|].
  rewrite str_app_cons, complete_cons. destruct (s +:+ t) eqn:E; [|done].
  destruct s; [|done]. by rewrite str_app_nil_l in E.
Qed.

Lemma complete_app_nl s : complete (s +:+ nl) = true.
Proof. by apply complete_app. Qed.

Lemma complete_app_complete s t :
  complete s = true → complete t = true → complete (s +:+ t) = true.
Proof.
  intros Hs Ht. destruct t as [|c t]; [by rewrite str_app_nil_r|].
  by apply complete_app.
Qed.

Lemma lines_of_cons_nonempty c s : lines_of (String c s) ≠ [].
Proof.
  cbn [lines_of]. destruct (is_nl c); [done|]. by destruct (lines_of s).
Qed.

Lemma lines_of_nil s : lines_of s = [] → s = "".
Proof. destruct s as [|c s]; [done|]. by intros ?%lines_of_cons_nonempty. Qed.

(** Splitting commutes with appending after a complete text. *)
Lemma lines_of_app s t :
  complete s = true → lines_of (s +:+ t) = lines_of s ++ lines_of t.
Proof.
  induction s as [|c s IH]; [done|].
  rewrite complete_cons, str_app_cons. cbn [lines_of].
  destruct s as [|c' s].
  - intros ->. by rewrite str_app_nil_l.
  - intros Hs. destruct (is_nl c).
    + by rewrite IH.
    + rewrite IH by done.
      pose proof (lines_of_cons_nonempty c' s).
      by destruct (lines_of (String c' s)).
Qed.

Lemma one_line_lines_of s : one_line s = true → lines_of s = [s].
Proof.
  induction s as [|c s IH]; [done|].
  cbn [one_line lines_of]. destruct (is_nl c).
  - by intros ->%bool_decide_eq_true.
  - intros [->%bool_decide_eq_true| Hs]%orb_true_iff; [done|].
    by rewrite IH.
Qed.

Lemma one_line_cons c s :
  is_nl c = false → s = "" ∨ one_line s = true → one_line (String c s) = true.
Proof.
  intros Hc Hs. cbn [one_line]. rewrite Hc. apply orb_true_iff.
  destruct Hs as [->|Hs]; [left|right]; by try apply bool_decide_eq_true.
Qed.

(** The lines of a text are single lines, and all but the last end with a
    line feed. *)
Lemma lines_of_one_line s : forallb one_line (lines_of s) = true.
Proof.
  induction s as [|c s IH]; [done|].
  cbn [lines_of]. destruct (is_nl c) eqn:Hc.
  - cbn [forallb one_line]. rewrite Hc, IH. by rewrite bool_decide_eq_true_2.
  - destruct (lines_of s) as [|l ls]; cbn [forallb] in *.
    + by rewrite one_line_cons; auto.
    + apply andb_true_iff in IH as [Hl Hls].
      rewrite one_line_cons; auto.
Qed.

Lemma lines_of_joinable s : joinable (lines_of s) = true.
Proof.
  induction s as [|c s IH]; [done|].
  cbn [lines_of]. destruct (is_nl c) eqn:Hc.
  - cbn [joinable]. destruct (lines_of s); [done|].
    cbn [complete]. by rewrite Hc, IH.
  - destruct (lines_of s) as [|l ls] eqn:E; [done|].
    cbn [joinable] in *. destruct ls; [done|].
    apply andb_true_iff in IH as [Hl Hls]. rewrite Hls, andb_true_r.
    rewrite complete_cons. destruct l; [|done].
    pose proof (lines_of_one_line s) as H1. rewrite E in H1. done.
Qed.

Lemma complete_lines_of s :
  complete s = true → forallb complete (lines_of s) = true.
Proof.
  induction s as [|c s IH]; [done|].
  rewrite complete_cons. cbn [lines_of]. destruct s as [|c' s].
  - intros Hc. rewrite Hc. cbn [lines_of forallb complete]. by rewrite Hc.
  - intros Hs. specialize (IH Hs). destruct (is_nl c) eqn:Hc.
    + cbn [forallb complete]. by rewrite Hc, IH.
    + pose proof (lines_of_cons_nonempty c' s).
      destruct (lines_of (String c' s)) as [|l ls] eqn:E; [done|].
      cbn [forallb] in *. apply andb_true_iff in IH as [Hl Hls].
      rewrite Hls, andb_true_r. rewrite complete_cons. destruct l; [|done].
      pose proof (lines_of_one_line (String c' s)) as H1.
      rewrite E in H1. done.
Qed.

Lemma joinable_cons x cs :
  joinable (x :: cs) = true ↔ cs = [] ∨ (complete x = true ∧ joinable cs = true).
Proof.
  cbn [joinable]. destruct cs as [|y cs]; [by split; auto|].
  rewrite andb_true_iff. split; [by right|]. by intros [?|?].
Qed.

Lemma joinable_app cs1 cs2 :
  forallb complete cs1 = true → joinable cs2 = true → joinable (cs1 ++ cs2) = true.
Proof.
  intros H1 H2. induction cs1 as [|x cs1 IH]; [done|].
  cbn [forallb] in H1. apply andb_true_iff in H1 as [Hx H1].
  rewrite <-app_comm_cons. apply joinable_cons. right. auto.
Qed.

Lemma joinable_forall cs : forallb complete cs = true → joinable cs = true.
Proof.
  intros H. rewrite <-(app_nil_r cs). by apply joinable_app.
Qed.

(** The lines of pieces written one after the other are the lines of the
    pieces, as long as no piece but the last stops in the middle of a
    line. *)
Lemma lines_of_text_of cs :
  joinable cs = true → lines_of (text_of cs) = flat_map lines_of cs.
Proof.
  induction cs as [|x cs IH]; [done|].
  intros [->|[Hx Hcs]]%joinable_cons.
  - cbn [text_of foldr flat_map]. by rewrite str_app_nil_r, app_nil_r.
  - rewrite text_of_cons, lines_of_app by done. cbn [flat_map]. by rewrite IH.
Qed.
End lines_facts.

(** ** Substrings and marker lines *)

Section marker_facts.
Implicit Types (s t a b p l : string) (c : ascii) (ls cs : list string).

Lemma prefix_app a s : String.prefix a (a +:+ s) = true.
Proof.
  induction a as [|c a IH]; [by destruct s|].
  rewrite str_app_cons. cbn [String.prefix]. by destruct (ascii_dec c c).
Qed.

Lemma prefix_inv a l : String.prefix a l = true → ∃ s, l = a +:+ s.
Proof.
  revert l. induction a as [|c a IH]; intros l; [by exists l|].
  destruct l as [|c' l]; [done|]. cbn [String.prefix].
  destruct (ascii_dec c c') as [->|]; [|done].
  intros [s ->]%IH. by exists s.
Qed.

Lemma contains_app a p s : contains a (p +:+ a +:+ s) = true.
Proof.
  induction p as [|c p IH].
  - rewrite str_app_nil_l. destruct (a +:+ s) eqn:E; cbn [contains];
      by rewrite <-E, prefix_app.
  - rewrite str_app_cons. cbn [contains]. by rewrite IH, orb_true_r.
Qed.

Lemma contains_inv a l : contains a l = true → ∃ p s, l = p +:+ a +:+ s.
Proof.
  induction l as [|c l IH]; cbn [contains].
  - rewrite orb_false_r. intros [s ->]%prefix_inv. by exists "", s.
  - intros [[s ->]%prefix_inv|(p & s & ->)%IH]%orb_true_iff.
    + by exists "", s.
    + by exists (String c p), s.
Qed.

Lemma no_nl_app s t : no_nl (s +:+ t) = no_nl s && no_nl t.
Proof.
  induction s as [|c s IH]; [done|].
  rewrite str_app_cons. cbn [no_nl]. by rewrite IH, andb_assoc.
Qed.

(** A text without line feed contains no text that has one. *)
Lemma no_nl_contains a l :
  no_nl l = true → no_nl a = false → contains a l = false.
Proof.
  intros Hl Ha. destruct (contains a l) eqn:E; [|done].
  apply contains_inv in E as (p & s & ->).
  rewrite !no_nl_app, Ha, andb_false_r in Hl. done.
Qed.

Lemma one_line_nl_inside p s : one_line (p +:+ nl +:+ s) = true → s = "".
Proof.
  induction p as [|c p IH].
  - rewrite str_app_nil_l. cbn. by intros ?%bool_decide_eq_true.
  - rewrite str_app_cons. cbn [one_line]. destruct (is_nl c).
    + intros ?%bool_decide_eq_true. by destruct p.
    + intros [?%bool_decide_eq_true|?]%orb_true_iff; [by destruct p|auto].
Qed.

Lemma one_line_app_nl p : no_nl p = true → one_line (p +:+ nl) = true.
Proof.
  induction p as [|c p IH]; [done|].
  cbn [no_nl]. intros [Hc Hp]%andb_true_iff. apply negb_true_iff in Hc.
  rewrite str_app_cons. apply one_line_cons; auto.
Qed.

Lemma one_line_complete l :
  one_line l = true → complete l = true ∨ no_nl l = true.
Proof.
  induction l as [|c l IH]; [done|].
  cbn [one_line]. rewrite complete_cons. cbn [no_nl].
  destruct (is_nl c) eqn:Hc.
  - intros ->%bool_decide_eq_true. by left.
  - intros [->%bool_decide_eq_true|Hl]%orb_true_iff; [by right|].
    destruct (IH Hl) as [?|Hn]; [left; by destruct l|right]. by rewrite Hn.
Qed.

(** In a single line a text ending with a line feed can only occur at the
    end. *)
Lemma one_line_contains a l :
  one_line l = true → contains (a +:+ nl) l = true → ∃ p, l = p +:+ a +:+ nl.
Proof.
  intros Hl (p & s & ->)%contains_inv.
  rewrite (str_app_assoc a nl s), <-(str_app_assoc p a) in Hl.
  apply one_line_nl_inside in Hl as ->. exists p.
  by rewrite str_app_nil_r.
Qed.

Lemma str_app_eq_app a b a' b' :
  a +:+ b = a' +:+ b' →
  (∃ x, a' = a +:+ x ∧ b = x +:+ b') ∨ (∃ x, a = a' +:+ x ∧ b' = x +:+ b).
Proof.
  revert a'. induction a as [|c a IH]; intros a' E.
  - left. by exists a'.
  - destruct a' as [|c' a'].
    + right. by exists (String c a).
    + rewrite !str_app_cons in E. injection E as Hc E. subst c'.
      destruct (IH _ E) as [(x & -> & ->)|(x & -> & ->)]; [left|right];
        by exists x.
Qed.

Lemma is_begin_BEGIN : is_begin _FILE_MARKER_BEGIN = true.
Proof. reflexivity. Qed.
Lemma is_end_BEGIN : is_end _FILE_MARKER_BEGIN = false.
Proof. reflexivity. Qed.
Lemma is_begin_END : is_begin _FILE_MARKER_END = false.
Proof. reflexivity. Qed.
Lemma is_end_END : is_end _FILE_MARKER_END = true.
Proof. reflexivity. Qed.

(** No line holds both markers: each can only be at the end of the line,
    and neither marker ends with the other. *)
Lemma begin_not_end l : one_line l = true → is_begin l = true → is_end l = false.
Proof.
  intros Hl Hb. destruct (is_end l) eqn:He; [exfalso|done].
  apply (one_line_contains _ l Hl) in Hb as [p Hp].
  apply (one_line_contains _ l Hl) in He as [q Hq].
  rewrite Hp in Hq. apply str_app_eq_app in Hq as [(x & _ & E)|(x & _ & E)].
  - assert (50 = String.length x + 48) as Hlen.
    { change 50 with (String.length _FILE_MARKER_BEGIN).
      change 48 with (String.length _FILE_MARKER_END).
      rewrite <-str_app_length. exact (f_equal String.length E). }
    destruct x as [|c1 [|c2 [|c3 x]]]; try (cbn in Hlen; lia).
    vm_compute in E. congruence.
  - assert (48 = String.length x + 50) as Hlen; [|lia].
    change 50 with (String.length _FILE_MARKER_BEGIN).
    change 48 with (String.length _FILE_MARKER_END).
    rewrite <-str_app_length. exact (f_equal String.length E).
Qed.
End marker_facts.

(** ** The loop, as a function of its flags *)

Section loop_facts.
Variable update : string.
Implicit Types (l : string) (ls pre body post rest : list string)
  (a s w : bool) (st : scan_state).

Local Abbreviation block := [_FILE_MARKER_BEGIN; update +:+ nl].

Lemma foldl_loop_body st ls :
  output_file (finish update (foldl (loop_body update) st ls)) =
  output_file st ++
    emitted update (add_content st) (skip_line st) (update_written st) ls.
Proof.
  revert st. induction ls as [|l ls IH]; intros [a s w out].
  - cbn. destruct w; cbn; [by rewrite app_nil_r|].
    by rewrite <-!app_assoc.
  - cbn [foldl]. rewrite IH. cbn [emitted]. unfold loop_body.
    destruct a, (is_begin l), (is_end l), s, w; cbn;
      rewrite <-?app_assoc; reflexivity.
Qed.

Lemma scan_emitted ls : scan update ls = emitted update false false false ls.
Proof. unfold scan. by rewrite foldl_loop_body. Qed.

(** Outside a section, lines without begin-marker are copied. *)
Lemma emitted_copy pre rest w :
  begin_free pre = true →
  emitted update false false w (pre ++ rest) =
  pre ++ emitted update false false w rest.
Proof.
  induction pre as [|l pre IH]; [done|].
  cbn [begin_free forallb]. intros [Hl Hpre]%andb_true_iff.
  apply negb_true_iff in Hl. rewrite <-app_comm_cons. cbn [emitted].
  rewrite Hl, orb_false_r. destruct (is_end l); cbn [app]; by rewrite IH.
Qed.

Lemma emitted_append ls w :
  begin_free ls = true →
  emitted update false false w ls =
  ls ++ (if w then [] else block ++ [_FILE_MARKER_END]).
Proof.
  intros H. rewrite <-(app_nil_r ls) at 1. by rewrite emitted_copy.
Qed.

(** Inside a section nothing is copied until the end-marker line; the
    pending begin-marker and replacement are written at the first line
    met. *)
Lemma emitted_skip body l rest a w :
  marker_free body = true → is_begin l = false → is_end l = true →
  emitted update a true w (body ++ l :: rest) =
  (if a then block else []) ++ l :: emitted update false false (w || a) rest.
Proof.
  intros Hbody Hb He. revert a w.
  induction body as [|x body IH]; intros a w.
  - cbn [app emitted]. rewrite Hb, He. done.
  - cbn [marker_free forallb] in Hbody.
    apply andb_true_iff in Hbody as [[Hx1 Hx2]%andb_true_iff Hbody].
    apply negb_true_iff in Hx1, Hx2.
    rewrite <-app_comm_cons. cbn [emitted]. rewrite Hx1, Hx2.
    rewrite (IH Hbody). by rewrite orb_false_r.
Qed.

Lemma emitted_skip_free body rest a w :
  marker_free body = true → body ≠ [] →
  emitted update a true w (body ++ rest) =
  (if a then block else []) ++ emitted update false true (w || a) rest.
Proof.
  intros Hbody Hne. revert a w.
  induction body as [|x body IH]; intros a w; [done|].
  cbn [marker_free forallb] in Hbody.
  apply andb_true_iff in Hbody as [[Hx1 Hx2]%andb_true_iff Hbody].
  apply negb_true_iff in Hx1, Hx2.
  rewrite <-app_comm_cons. cbn [emitted]. rewrite Hx1, Hx2.
  destruct body as [|y body]; [done|].
  rewrite (IH Hbody) by done. by rewrite orb_false_r.
Qed.

(** The closed form on an input with one section. *)
Lemma emitted_section pre b body e post :
  begin_free pre = true → is_begin b = true →
  marker_free body = true →
  is_begin e = false → is_end e = true →
  begin_free post = true →
  emitted update false false false (pre ++ b :: body ++ e :: post) =
  pre ++ block ++ e :: post.
Proof.
  intros Hpre Hb Hbody He1 He2 Hpost.
  rewrite emitted_copy by done. f_equal.
  cbn [emitted]. rewrite Hb. cbn [app].
  rewrite emitted_skip by done. cbn [orb app].
  rewrite emitted_append by done. by rewrite app_nil_r.
Qed.
End loop_facts.

(** ** Running the loop on its own output *)

Section rerun_facts.
Variable update : string.
Hypothesis update_free : marker_free (lines_of (update +:+ nl)) = true.
Implicit Types (l : string) (ls rest : list string) (a s w : bool).

Local Abbreviation block := [_FILE_MARKER_BEGIN; update +:+ nl].

Lemma update_lines_nonempty : lines_of (update +:+ nl) ≠ [].
Proof. intros E%lines_of_nil. by destruct update. Qed.

Lemma flat_map_block rest :
  flat_map lines_of (block ++ rest) =
  _FILE_MARKER_BEGIN :: lines_of (update +:+ nl) ++ flat_map lines_of rest.
Proof. reflexivity. Qed.

(** A section written by a first run is found by a second one, which writes
    it again and is left inside it. *)
Lemma emitted_block rest s w :
  emitted update false s w
    (_FILE_MARKER_BEGIN :: lines_of (update +:+ nl) ++ rest) =
  block ++ emitted update false true true rest.
Proof.
  cbn [emitted]. rewrite is_begin_BEGIN. cbn [app].
  rewrite emitted_skip_free by auto using update_lines_nonempty.
  by rewrite orb_true_r.
Qed.

Lemma emitted_rerun ls :
  forallb one_line ls = true →
  ∀ a s w s2, (s2 = true → s = true) → (a = true → s = true) →
  emitted update false s2 w (flat_map lines_of (emitted update a s w ls)) =
  emitted update a s w ls.
Proof.
  induction ls as [|l ls IH]; intros Hls a s w s2 Hs2 Ha.
  - cbn [emitted]. destruct w; [done|].
    change [_FILE_MARKER_BEGIN; update +:+ nl; _FILE_MARKER_END]
      with (block ++ [_FILE_MARKER_END]).
    rewrite flat_map_block, emitted_block. reflexivity.
  - cbn [forallb] in Hls. apply andb_true_iff in Hls as [Hl Hls].
    specialize (IH Hls). cbn [emitted].
    assert (∀ rest, flat_map lines_of ([l] ++ rest) = l :: flat_map lines_of rest)
      as Hcopy.
    { intros rest. cbn [app flat_map]. by rewrite (one_line_lines_of l Hl). }
    destruct a.
    + rewrite (Ha eq_refl), orb_true_r, flat_map_block, emitted_block.
      f_equal. destruct (is_begin l) eqn:Hb.
      * cbn [app]. by apply IH.
      * destruct (is_end l) eqn:He.
        -- rewrite Hcopy. cbn [emitted]. rewrite Hb, He. cbn [app orb].
           f_equal. by apply IH.
        -- cbn [app]. by apply IH.
    + rewrite orb_false_r. cbn [app]. destruct (is_begin l) eqn:Hb.
      * cbn [app]. by apply IH.
      * destruct (is_end l) eqn:He.
        -- change (l :: ?x) with ([l] ++ x). rewrite Hcopy. cbn [emitted].
           rewrite Hb, He. cbn [app orb]. rewrite orb_false_r.
           f_equal. by apply IH.
        -- destruct s.
           ++ cbn [app]. by apply IH.
           ++ destruct s2; [by specialize (Hs2 eq_refl)|].
              change (l :: ?x) with ([l] ++ x). rewrite Hcopy. cbn [emitted].
              rewrite Hb, He. cbn [app orb]. rewrite orb_false_r.
              f_equal. by apply IH.
Qed.

(** No piece written before the last one stops in the middle of a line,
    unless the input's last line does and no section was met. *)
Lemma emitted_joinable ls a s w :
  joinable ls = true →
  forallb complete ls = true ∨ w || a || has_begin ls = true →
  joinable (emitted update a s w ls) = true.
Proof.
  revert a s w. induction ls as [|l ls IH]; intros a s w Hj Hc.
  - cbn [emitted]. destruct w; [done|].
    cbn [joinable]. by rewrite complete_app_nl.
  - cbn [emitted].
    assert (forallb complete (if a then block else []) = true) as Hblock.
    { destruct a; [|done]. cbn [forallb]. by rewrite complete_app_nl. }
    apply joinable_app; [done|].
    remember (if is_begin l then true else if is_end l then false else s)
    as s' eqn:Hs'.
    assert (joinable (emitted update (is_begin l) s' (w || a) ls) = true) as Hrest.
    { apply IH.
      - apply joinable_cons in Hj as [->|[_ ?]]; done.
      - destruct Hc as [Hc|Hc].
        + left. cbn [forallb] in Hc. by apply andb_true_iff in Hc as [_ ?].
        + right. cbn [has_begin existsb] in Hc. unfold has_begin.
          by rewrite <-orb_assoc. }
    destruct s'; [done|]. cbn [app].
    apply joinable_cons. apply joinable_cons in Hj as [->|[? _]]; [|by right].
    cbn [emitted] in *. destruct (w || a) eqn:Hwa; [by left|].
    right. split; [|done]. destruct Hc as [Hc|Hc].
    + cbn [forallb] in Hc. by apply andb_true_iff in Hc as [? _].
    + cbn [has_begin existsb] in Hc. rewrite orb_false_r in Hc.
      cbn [orb] in Hc. by rewrite Hc in Hs'.
Qed.
End rerun_facts.

(** ** The updated text *)

Section update_facts.
Implicit Types (input update : string) (l : string) (ls : list string).

Lemma updated_text_emitted input update :
  updated_text input update =
  text_of (emitted update false false false (lines_of input)).
Proof. unfold updated_text. by rewrite scan_emitted. Qed.

Lemma flat_map_one_line ls :
  forallb one_line ls = true → flat_map lines_of ls = ls.
Proof.
  induction ls as [|l ls IH]; [done|].
  cbn [forallb flat_map]. intros [Hl Hls]%andb_true_iff.
  by rewrite (one_line_lines_of l Hl), IH.
Qed.

Lemma flat_map_lines_of input : flat_map lines_of (lines_of input) = lines_of input.
Proof. apply flat_map_one_line, lines_of_one_line. Qed.

(** The lines a later run reads back are the lines of the pieces written. *)
Lemma lines_of_updated_text input update :
  complete input = true ∨ has_begin (lines_of input) = true →
  lines_of (updated_text input update) =
  flat_map lines_of (emitted update false false false (lines_of input)).
Proof.
  intros H. rewrite updated_text_emitted. apply lines_of_text_of.
  apply emitted_joinable; [apply lines_of_joinable|].
  destruct H as [H|H]; [left; by apply complete_lines_of|by right].
Qed.

Lemma updated_text_idempotent input update :
  marker_free (lines_of (update +:+ nl)) = true →
  complete input = true ∨ has_begin (lines_of input) = true →
  updated_text (updated_text input update) update = updated_text input update.
Proof.
  intros Hu Hin. rewrite (updated_text_emitted (updated_text _ _)).
  rewrite lines_of_updated_text by done.
  rewrite emitted_rerun; auto using lines_of_one_line.
  by rewrite <-updated_text_emitted.
Qed.

Lemma updated_text_append input update :
  begin_free (lines_of input) = true →
  updated_text input update =
  input +:+ _FILE_MARKER_BEGIN +:+ update +:+ nl +:+ _FILE_MARKER_END.
Proof.
  intros H. rewrite updated_text_emitted, emitted_append by done.
  rewrite text_of_app, text_of_lines_of. cbn [app text_of foldr].
  by rewrite str_app_nil_r, !str_app_assoc.
Qed.

Lemma updated_text_section input update pre b body e post :
  lines_of input = pre ++ b :: body ++ e :: post →
  begin_free pre = true → is_begin b = true → marker_free body = true →
  is_end e = true → begin_free post = true →
  updated_text input update =
  text_of pre +:+ _FILE_MARKER_BEGIN +:+ update +:+ nl +:+ e +:+ text_of post.
Proof.
  intros Hin Hpre Hb Hbody He Hpost.
  assert (is_begin e = false) as He'.
  { destruct (is_begin e) eqn:E; [|done].
    pose proof (lines_of_one_line input) as H1. rewrite Hin in H1.
    rewrite forallb_app in H1. apply andb_true_iff in H1 as [_ H1].
    cbn [forallb] in H1. apply andb_true_iff in H1 as [_ H1].
    rewrite forallb_app in H1. apply andb_true_iff in H1 as [_ H1].
    cbn [forallb] in H1. apply andb_true_iff in H1 as [H1 _].
    by rewrite (begin_not_end e H1 E) in He. }
  rewrite updated_text_emitted, Hin, emitted_section by done.
  rewrite text_of_app. cbn [app]. rewrite !text_of_cons.
  by rewrite !str_app_assoc.
Qed.
End update_facts.

(** ** The file system *)

Section fs_facts.
Implicit Types (σ : gmap string string) (tmp path update : string)
  (ops : list fs_op) (ws : list string).

Lemma foldl_on_tmp tmp path ops σ :
  tmp ≠ path → Forall (on_tmp tmp) ops →
  foldl apply_op σ ops !! path = σ !! path.
Proof.
  intros Hne Hops. revert σ.
  induction Hops as [|op ops Hop _ IH]; intros σ; [done|].
  cbn [foldl]. rewrite IH.
  destruct op; cbn in Hop |- *; try done; subst.
  - by rewrite lookup_insert_ne.
  - by rewrite lookup_alter_ne.
Qed.

Lemma foldl_writes tmp ws σ c :
  σ !! tmp = Some c →
  foldl apply_op σ (WriteTo tmp <$> ws) = <[tmp := c +:+ text_of ws]> σ.
Proof.
  revert σ c. induction ws as [|w ws IH]; intros σ c Hc.
  - cbn. by rewrite str_app_nil_r, insert_id.
  - cbn [fmap list_fmap foldl apply_op].
    rewrite (IH _ (c +:+ w)).
    + rewrite text_of_cons, str_app_assoc.
      apply map_eq. intros k. destruct (decide (k = tmp)) as [->|].
      * by rewrite !lookup_insert_eq.
      * by rewrite !lookup_insert_ne, lookup_alter_ne.
    + by rewrite lookup_alter_eq, Hc.
Qed.

Lemma writes_on_tmp tmp ws : Forall (on_tmp tmp) (WriteTo tmp <$> ws).
Proof. induction ws; by constructor. Qed.

(** The content of the target after a whole call. *)
Lemma _update_file_lookup tmp path update σ :
  tmp ≠ path →
  _update_file tmp path update σ !! path =
  Some (updated_text (file_text σ path) update).
Proof.
  intros Hne. unfold _update_file, _update_file_ops.
  cbn [foldl]. rewrite foldl_app. cbn [foldl].
  set (σ0 := apply_op σ _).
  rewrite (foldl_writes tmp _ _ "").
  - cbn [apply_op]. rewrite lookup_insert_eq, lookup_insert_eq.
    by rewrite str_app_nil_l.
  - cbn [apply_op]. by rewrite lookup_insert_eq.
Qed.
End fs_facts.

(** ** Counting marker lines, and the lines left alone *)

Section count_facts.
Implicit Types (input update : string) (l : string) (ls : list string).

Lemma count_begin_cons l ls :
  count_begin (l :: ls) = (if is_begin l then 1 else 0) + count_begin ls.
Proof.
  unfold count_begin. rewrite filter_cons.
  destruct (is_begin l); by case_decide.
Qed.

Lemma count_end_cons l ls :
  count_end (l :: ls) = (if is_end l then 1 else 0) + count_end ls.
Proof.
  unfold count_end. rewrite filter_cons.
  destruct (is_end l); by case_decide.
Qed.

Lemma count_begin_app ls1 ls2 :
  count_begin (ls1 ++ ls2) = count_begin ls1 + count_begin ls2.
Proof.
  induction ls1 as [|l ls1 IH]; [done|].
  rewrite <-app_comm_cons, !count_begin_cons, IH. lia.
Qed.

Lemma count_end_app ls1 ls2 :
  count_end (ls1 ++ ls2) = count_end ls1 + count_end ls2.
Proof.
  induction ls1 as [|l ls1 IH]; [done|].
  rewrite <-app_comm_cons, !count_end_cons, IH. lia.
Qed.

Lemma marker_free_count ls :
  marker_free ls = true → count_begin ls = 0 ∧ count_end ls = 0.
Proof.
  induction ls as [|l ls IH]; [done|].
  cbn [marker_free forallb]. intros [[H1 H2]%andb_true_iff Hls]%andb_true_iff.
  apply negb_true_iff in H1, H2.
  rewrite count_begin_cons, count_end_cons, H1, H2.
  destruct (IH Hls) as [-> ->]. done.
Qed.

Lemma marker_free_app ls1 ls2 :
  marker_free (ls1 ++ ls2) = marker_free ls1 && marker_free ls2.
Proof. apply forallb_app. Qed.

Lemma marker_free_begin_free ls : marker_free ls = true → begin_free ls = true.
Proof.
  induction ls as [|l ls IH]; [done|].
  cbn [marker_free begin_free forallb].
  intros [[H1 _]%andb_true_iff Hls]%andb_true_iff.
  rewrite H1. by apply IH.
Qed.

(** A text is a complete text followed by a last line without line feed. *)
Lemma split_last_line input :
  ∃ s0 t, input = s0 +:+ t ∧ complete s0 = true ∧ no_nl t = true.
Proof.
  induction input as [|c s (s0 & t & -> & Hs0 & Ht)]; [by exists "", ""|].
  destruct (is_nl c) eqn:Hc.
  - exists (String c s0), t. split; [done|]. split; [|done].
    rewrite complete_cons. by destruct s0.
  - destruct s0 as [|c0 s0].
    + exists "", (String c t). split; [done|]. split; [done|].
      cbn [no_nl]. by rewrite Hc, Ht.
    + exists (String c (String c0 s0)), t. done.
Qed.

Lemma lines_of_first t rest :
  no_nl t = true → lines_of (t +:+ nl +:+ rest) = (t +:+ nl) :: lines_of rest.
Proof.
  induction t as [|c t IH]; [done|].
  cbn [no_nl]. intros [Hc Ht]%andb_true_iff. apply negb_true_iff in Hc.
  rewrite str_app_cons. cbn [lines_of]. by rewrite Hc, (IH Ht).
Qed.

(** The lines of the output when the section is appended, whether or not
    the input ends with a line feed. *)
Lemma lines_of_appended input update :
  ∃ s0 t, input = s0 +:+ t ∧ complete s0 = true ∧ no_nl t = true ∧
  lines_of (input +:+ _FILE_MARKER_BEGIN +:+ update +:+ nl +:+ _FILE_MARKER_END) =
  lines_of s0 ++ (t +:+ _FILE_MARKER_BEGIN) ::
    lines_of (update +:+ nl) ++ [_FILE_MARKER_END].
Proof.
  destruct (split_last_line input) as (s0 & t & -> & Hs0 & Ht).
  exists s0, t. do 3 (split; [done|]).
  rewrite str_app_assoc, lines_of_app by done. f_equal.
  unfold _FILE_MARKER_BEGIN at 1.
  rewrite (str_app_assoc _ nl), <-(str_app_assoc t).
  rewrite lines_of_first by (by rewrite no_nl_app, Ht).
  rewrite str_app_assoc. f_equal.
  rewrite <-(str_app_assoc update), lines_of_app by apply complete_app_nl.
  done.
Qed.

Lemma copied_sublist_emitted update ls a s w :
  copied s ls `sublist_of` emitted update a s w ls.
Proof.
  revert a s w. induction ls as [|l ls IH]; intros a s w.
  - apply sublist_nil_l.
  - cbn [copied emitted]. apply sublist_inserts_l.
    destruct (is_begin l); [apply IH|].
    destruct s.
    + destruct (is_end l); cbn [negb app]; [apply sublist_cons|]; apply IH.
    + replace (if is_end l then false else false) with false
        by (by destruct (is_end l)).
      cbn [app]. apply sublist_skip, IH.
Qed.

Lemma copied_one_line s ls :
  forallb one_line ls = true → forallb one_line (copied s ls) = true.
Proof.
  revert s. induction ls as [|l ls IH]; intros s; [done|].
  cbn [forallb copied]. intros [Hl Hls]%andb_true_iff.
  destruct (is_begin l); [by apply IH|].
  destruct s; [by apply IH|]. cbn [forallb]. by rewrite Hl, IH.
Qed.

Lemma sublist_flat_map_lines ls cs :
  ls `sublist_of` cs → forallb one_line ls = true →
  ls `sublist_of` flat_map lines_of cs.
Proof.
  induction 1 as [|x l1 l2 _ IH|x l1 l2 _ IH]; [done|..].
  - cbn [forallb flat_map]. intros [Hx Hl]%andb_true_iff.
    rewrite (one_line_lines_of x Hx). apply sublist_skip. auto.
  - intros Hl. cbn [flat_map]. apply sublist_inserts_l. auto.
Qed.
End count_facts.

(** ** Properties of [_update_file] *)

Lemma file_text_update tmp path update (σ : gmap string string) :
  tmp ≠ path →
  file_text (_update_file tmp path update σ) path =
  updated_text (file_text σ path) update.
Proof. intros Hne. unfold file_text at 1. by rewrite _update_file_lookup. Qed.

(** C1, as stated, fails: on a file whose last line has no line feed and
    that holds no section yet, the first call glues the begin marker to that
    line, and the second call takes the glued line for a marker line and
    replaces it by the marker alone. *)
Lemma update_file_twice_differs :
  let σ : gmap string string := {["MODULE.bazel" := "module(name = 'ddk')"]} in
  let once := _update_file "/tmp/tmp1" "MODULE.bazel" "bazel_dep(name = 'kleaf')" σ in
  let twice := _update_file "/tmp/tmp2" "MODULE.bazel" "bazel_dep(name = 'kleaf')" once in
  twice !! "MODULE.bazel" ≠ once !! "MODULE.bazel".
Proof.
  cbv zeta. rewrite !_update_file_lookup by done.
  rewrite file_text_update by done. vm_compute. discriminate.
Qed.

(** The same with a replacement that holds a marker line: the first call
    writes it between the markers, and the second call finds two begin
    markers. *)
Example marker_in_update_breaks_rerun :
  let update := "### GENERATED SECTION - DO NOT MODIFY - BEGIN ###" in
  updated_text (updated_text "" update) update ≠ updated_text "" update.
Proof. vm_compute. discriminate. Qed.

(** C4: a file with one section, [pre], the begin marker, [body], the end
    marker, [post], becomes [pre], the begin marker, the replacement and a
    line feed, the end marker, [post]: the body is replaced and the rest is
    untouched.  At [pre = "a\n"], [body = "old\n"], [post = "b\n"] and the
    replacement ["new"] this is the scenario of the specification. *)
Theorem update_file_replaces_section tmp path update pre body post
    (σ : gmap string string) :
  tmp ≠ path →
  σ !! path = Some (pre +:+ _FILE_MARKER_BEGIN +:+ body +:+ _FILE_MARKER_END
                    +:+ post) →
  complete pre = true → begin_free (lines_of pre) = true →
  complete body = true → marker_free (lines_of body) = true →
  begin_free (lines_of post) = true →
  _update_file tmp path update σ !! path =
  Some (pre +:+ _FILE_MARKER_BEGIN +:+ update +:+ nl +:+ _FILE_MARKER_END
        +:+ post).
Proof.
  intros Hne Hσ Hpre1 Hpre2 Hbody1 Hbody2 Hpost.
  rewrite _update_file_lookup by done. f_equal.
  unfold file_text. rewrite Hσ. cbn [default from_option id].
  rewrite (updated_text_section _ update (lines_of pre) _FILE_MARKER_BEGIN
             (lines_of body) _FILE_MARKER_END (lines_of post)); try done.
  - by rewrite !text_of_lines_of.
  - rewrite lines_of_app by done.
    change (_FILE_MARKER_BEGIN +:+ ?x) with
      (("### GENERATED SECTION - DO NOT MODIFY - BEGIN ###" +:+ nl) +:+ x).
    rewrite str_app_assoc, lines_of_first by done.
    rewrite lines_of_app by done.
    change (_FILE_MARKER_END +:+ ?x) with
      (("### GENERATED SECTION - DO NOT MODIFY - END ###" +:+ nl) +:+ x).
    rewrite str_app_assoc, lines_of_first by done.
    done.
Qed.

Lemma update_file_replaces_section_witness :
  let old_text := "a" +:+ nl +:+ _FILE_MARKER_BEGIN +:+ ("old" +:+ nl)
                  +:+ _FILE_MARKER_END +:+ "b" +:+ nl in
  let σ : gmap string string := {["f" := old_text]} in
  _update_file "t" "f" "new" σ !! "f" =
  Some ("a" +:+ nl +:+ _FILE_MARKER_BEGIN +:+ "new" +:+ nl
        +:+ _FILE_MARKER_END +:+ "b" +:+ nl).
Proof.
  cbv zeta.
  refine (update_file_replaces_section "t" "f" "new" ("a" +:+ nl)
            ("old" +:+ nl) ("b" +:+ nl) _ _ _ _ _ _ _ _).
  - discriminate.
  - reflexivity.
  - reflexivity.
  - reflexivity.
  - reflexivity.
  - reflexivity.
  - reflexivity.
Defined.

(** C5: when no line of the input holds the begin marker, the output is the
    input followed by the begin marker, the replacement and a line feed, and
    the end marker; a path that does not exist is read as an empty input, so
    the new file holds exactly these three pieces. *)
Theorem update_file_appends tmp path update (σ : gmap string string) :
  tmp ≠ path →
  begin_free (lines_of (file_text σ path)) = true →
  _update_file tmp path update σ !! path =
    Some (file_text σ path +:+ _FILE_MARKER_BEGIN +:+ update +:+ nl
          +:+ _FILE_MARKER_END)
  ∧ (σ !! path = None →
     _update_file tmp path update σ !! path =
       Some (_FILE_MARKER_BEGIN +:+ update +:+ nl +:+ _FILE_MARKER_END)).
Proof.
  intros Hne Hfree.
  assert (_update_file tmp path update σ !! path =
    Some (file_text σ path +:+ _FILE_MARKER_BEGIN +:+ update +:+ nl
          +:+ _FILE_MARKER_END)) as H.
  { rewrite _update_file_lookup by done. f_equal.
    by apply updated_text_append. }
  split; [done|]. intros Hnone. rewrite H. unfold file_text.
  by rewrite Hnone.
Qed.

Lemma update_file_appends_witness :
  let σ : gmap string string := {["f" := "a" +:+ nl +:+ "b" +:+ nl]} in
  _update_file "t" "f" "new" σ !! "f" =
    Some (("a" +:+ nl +:+ "b" +:+ nl) +:+ _FILE_MARKER_BEGIN +:+ "new" +:+ nl
          +:+ _FILE_MARKER_END)
  ∧ _update_file "t" "f" "new" ∅ !! "f" =
    Some (_FILE_MARKER_BEGIN +:+ "new" +:+ nl +:+ _FILE_MARKER_END).
Proof.
  cbv zeta. split.
  - refine (proj1 (update_file_appends "t" "f" "new"
                     {["f" := "a" +:+ nl +:+ "b" +:+ nl]} _ _)).
    + discriminate.
    + reflexivity.
  - refine (proj2 (update_file_appends "t" "f" "new" ∅ _ _) _).
    + discriminate.
    + reflexivity.
    + reflexivity.
Defined.

(** C6, as stated, fails: the begin-marker line met in the input is not
    copied.  A line that holds the marker after other characters is a
    begin-marker line for the loop, and the output holds the marker constant
    in its place. *)
Lemma begin_line_not_copied :
  let b := "# kleaf " +:+ _FILE_MARKER_BEGIN in
  let σ : gmap string string :=
    {["f" := b +:+ "old" +:+ nl +:+ _FILE_MARKER_END]} in
  let out := file_text (_update_file "t" "f" "new" σ) "f" in
  lines_of (file_text σ "f") = [b; "old" +:+ nl; _FILE_MARKER_END]
  ∧ is_begin b = true
  ∧ lines_of out = [_FILE_MARKER_BEGIN; "new" +:+ nl; _FILE_MARKER_END]
  ∧ ¬ (lines_of out = [b; "new" +:+ nl; _FILE_MARKER_END]).
Proof.
  cbv zeta. rewrite file_text_update by done.
  split; [reflexivity|]. split; [reflexivity|]. split; [reflexivity|].
  vm_compute. discriminate.
Qed.

(** C6 (amended): on an input with a begin-marker line [b], lines [body]
    without marker, an end-marker line [e], and no begin-marker line before
    or after, the output holds, in place of [b], [body] and [e]: the marker
    constant [_FILE_MARKER_BEGIN] (not the line [b]), the replacement
    followed by a line feed, and the line [e] itself; the lines before and
    after are copied. *)
Theorem update_file_section_layout tmp path update pre b body e post
    (σ : gmap string string) :
  tmp ≠ path →
  lines_of (file_text σ path) = pre ++ b :: body ++ e :: post →
  begin_free pre = true → is_begin b = true → marker_free body = true →
  is_end e = true → begin_free post = true →
  _update_file tmp path update σ !! path =
  Some (text_of pre +:+ _FILE_MARKER_BEGIN +:+ update +:+ nl +:+ e
        +:+ text_of post).
Proof.
  intros Hne Hin Hpre Hb Hbody He Hpost.
  rewrite _update_file_lookup by done. f_equal.
  by apply (updated_text_section _ update pre b body e post).
Qed.

Lemma update_file_section_layout_witness :
  let b := "# kleaf " +:+ _FILE_MARKER_BEGIN in
  let e := "# " +:+ _FILE_MARKER_END in
  let σ : gmap string string :=
    {["f" := "a" +:+ nl +:+ b +:+ "old" +:+ nl +:+ e +:+ "z"]} in
  _update_file "t" "f" "new" σ !! "f" =
  Some (text_of ["a" +:+ nl] +:+ _FILE_MARKER_BEGIN +:+ "new" +:+ nl +:+ e
        +:+ text_of ["z"]).
Proof.
  cbv zeta.
  refine (update_file_section_layout "t" "f" "new" ["a" +:+ nl]
            ("# kleaf " +:+ _FILE_MARKER_BEGIN) ["old" +:+ nl]
            ("# " +:+ _FILE_MARKER_END) ["z"] _ _ _ _ _ _ _ _).
  - discriminate.
  - reflexivity.
  - reflexivity.
  - reflexivity.
  - reflexivity.
  - reflexivity.
  - reflexivity.
Defined.

Lemma is_begin_glued t : is_begin (t +:+ _FILE_MARKER_BEGIN) = true.
Proof.
  unfold is_begin. rewrite <-(str_app_nil_r _FILE_MARKER_BEGIN) at 2.
  apply contains_app.
Qed.

Lemma is_end_glued t : no_nl t = true → is_end (t +:+ _FILE_MARKER_BEGIN) = false.
Proof.
  intros Ht. apply begin_not_end; [|apply is_begin_glued].
  unfold _FILE_MARKER_BEGIN. rewrite <-str_app_assoc.
  apply one_line_app_nl. by rewrite no_nl_app, Ht.
Qed.

Lemma updated_text_counts input update :
  marker_free (lines_of (update +:+ nl)) = true →
  marker_free (lines_of input) = true
  ∨ (∃ pre b body e post,
       lines_of input = pre ++ b :: body ++ e :: post
       ∧ marker_free pre = true ∧ is_begin b = true
       ∧ marker_free body = true ∧ is_end e = true
       ∧ marker_free post = true) →
  count_begin (lines_of (updated_text input update)) = 1
  ∧ count_end (lines_of (updated_text input update)) = 1.
Proof.
  intros Hu [Hfree|(pre & b & body & e & post & Hin & Hpre & Hb & Hbody & He & Hpost)].
  - rewrite updated_text_append by by apply marker_free_begin_free.
    destruct (lines_of_appended input update) as (s0 & t & E & Hs0 & Ht & ->).
    subst input. rewrite lines_of_app, marker_free_app in Hfree by done.
    apply andb_true_iff in Hfree as [Hfree _].
    destruct (marker_free_count _ Hfree) as [Hb0 He0].
    destruct (marker_free_count _ Hu) as [Hbu Heu].
    rewrite count_begin_app, count_begin_cons, count_begin_app.
    rewrite count_end_app, count_end_cons, count_end_app.
    rewrite Hb0, He0, Hbu, Heu, is_begin_glued, is_end_glued by done.
    done.
  - pose proof (lines_of_one_line input) as H1. rewrite Hin in H1.
    rewrite forallb_app in H1. apply andb_true_iff in H1 as [H1pre H1].
    cbn [forallb] in H1. apply andb_true_iff in H1 as [_ H1].
    rewrite forallb_app in H1. apply andb_true_iff in H1 as [_ H1].
    assert (one_line e = true) as H1e.
    { cbn [forallb] in H1. by apply andb_true_iff in H1 as [? _]. }
    assert (is_begin e = false) as He'.
    { destruct (is_begin e) eqn:E; [|done].
      by rewrite (begin_not_end e H1e E) in He. }
    rewrite lines_of_updated_text.
    2:{ right. rewrite Hin. unfold has_begin. rewrite existsb_app.
        cbn [existsb]. by rewrite Hb, orb_true_r. }
    rewrite Hin, emitted_section by auto using marker_free_begin_free.
    rewrite flat_map_app, flat_map_block.
    rewrite (flat_map_one_line pre), (flat_map_one_line (e :: post)) by done.
    destruct (marker_free_count _ Hu) as [Hbu Heu].
    destruct (marker_free_count _ Hpre) as [Hb1 He1].
    destruct (marker_free_count _ Hpost) as [Hb2 He2].
    rewrite count_begin_app, count_begin_cons, count_begin_app, count_begin_cons.
    rewrite count_end_app, count_end_cons, count_end_app, count_end_cons.
    rewrite Hbu, Heu, Hb1, He1, Hb2, He2, He, He', is_begin_BEGIN, is_end_BEGIN.
    done.
Qed.

(** C2, as stated, fails: the loop replaces every section it meets, so an
    input with two sections comes out with two begin markers and two end
    markers. *)
Lemma two_sections_stay_two :
  let section := _FILE_MARKER_BEGIN +:+ "old" +:+ nl +:+ _FILE_MARKER_END in
  let σ : gmap string string := {["f" := section +:+ section]} in
  let out := file_text (_update_file "t" "f" "new" σ) "f" in
  ¬ (count_begin (lines_of out) = 1 ∧ count_end (lines_of out) = 1).
Proof.
  cbv zeta. rewrite file_text_update by done. vm_compute. intros [? ?].
  discriminate.
Qed.

(** A begin marker that is never closed leaves the output without end
    marker. *)
Example open_section_stays_open :
  let out := updated_text (_FILE_MARKER_BEGIN +:+ "old" +:+ nl) "new" in
  out = _FILE_MARKER_BEGIN +:+ "new" +:+ nl ∧ count_end (lines_of out) = 0.
Proof. vm_compute. done. Qed.

(** C2 (amended): when no line of the replacement followed by a line feed
    holds a marker, and the input either holds no marker line or holds
    exactly one begin-marker line, later exactly one end-marker line, and no
    other marker line, the file written by [_update_file] has exactly one
    line holding the begin marker and exactly one line holding the end
    marker. *)
Theorem update_file_single_section tmp path update (σ : gmap string string) :
  tmp ≠ path →
  marker_free (lines_of (update +:+ nl)) = true →
  marker_free (lines_of (file_text σ path)) = true
  ∨ (∃ pre b body e post,
       lines_of (file_text σ path) = pre ++ b :: body ++ e :: post
       ∧ marker_free pre = true ∧ is_begin b = true
       ∧ marker_free body = true ∧ is_end e = true
       ∧ marker_free post = true) →
  count_begin (lines_of (file_text (_update_file tmp path update σ) path)) = 1
  ∧ count_end (lines_of (file_text (_update_file tmp path update σ) path)) = 1.
Proof.
  intros Hne Hu Hin. rewrite file_text_update by done.
  by apply updated_text_counts.
Qed.

Lemma update_file_single_section_witness :
  let σ : gmap string string :=
    {["f" := "a" +:+ nl +:+ _FILE_MARKER_BEGIN +:+ "old" +:+ nl
             +:+ _FILE_MARKER_END +:+ "b"]} in
  (count_begin (lines_of (file_text (_update_file "t" "f" "new" σ) "f")) = 1
   ∧ count_end (lines_of (file_text (_update_file "t" "f" "new" σ) "f")) = 1)
  ∧ (count_begin (lines_of (file_text (_update_file "t" "g" "new" σ) "g")) = 1
     ∧ count_end (lines_of (file_text (_update_file "t" "g" "new" σ) "g")) = 1).
Proof.
  cbv zeta. split.
  - refine (update_file_single_section "t" "f" "new" _ _ _ _).
    + discriminate.
    + reflexivity.
    + right. exists ["a" +:+ nl], _FILE_MARKER_BEGIN, ["old" +:+ nl],
        _FILE_MARKER_END, ["b"].
      repeat split; reflexivity.
  - refine (update_file_single_section "t" "g" "new" _ _ _ _).
    + discriminate.
    + reflexivity.
    + left. reflexivity.
Defined.

(** Every line the loop copies is written as it is, in the order of the
    input. *)
Lemma copied_sublist_scan update ls :
  copied false ls `sublist_of` scan update ls.
Proof. rewrite scan_emitted. apply copied_sublist_emitted. Qed.

(** ** The target file while [_update_file] runs *)

Lemma _update_file_ops_split tmp path update (σ : gmap string string) :
  ∃ o, (o = OpenRead path ∧ is_Some (σ !! path)
        ∨ o = OpenAppend path ∧ σ !! path = None)
  ∧ _update_file_ops tmp path update σ =
    (o :: MkTemp tmp
       :: (WriteTo tmp <$> scan update (lines_of (file_text σ path))))
    ++ [Move tmp path].
Proof.
  unfold _update_file_ops. case_bool_decide as Hp.
  - exists (OpenRead path). split; [by left|done].
  - exists (OpenAppend path). split; [right|done].
    split; [done|]. by apply eq_None_not_Some.
Qed.

(** C7, as stated, fails on a path that does not exist: [open(path, "a+")]
    creates the target, empty, before anything is written to the temporary
    file, so the final move is not the only change of the target path. *)
Lemma missing_target_created_before_move :
  let σ : gmap string string := ∅ in
  1 < length (_update_file_ops "/tmp/tmp1" "MODULE.bazel" "new" σ)
  ∧ σ !! "MODULE.bazel" = None
  ∧ interrupted 1 "/tmp/tmp1" "MODULE.bazel" "new" σ !! "MODULE.bazel" = Some ""
  ∧ ¬ (interrupted 1 "/tmp/tmp1" "MODULE.bazel" "new" σ !! "MODULE.bazel"
       = σ !! "MODULE.bazel").
Proof.
  cbv zeta. split; [vm_compute; lia|]. split; [reflexivity|].
  split; [reflexivity|]. vm_compute. discriminate.
Qed.

(** C7 (amended): every text is written to the temporary file; a call
    stopped before its last operation leaves an existing target with its
    content, and a missing target either missing (stopped before
    [open(path, "a+")]) or created empty; the last operation, the move, gives
    the target its whole new content. *)
Theorem update_file_atomic tmp path update (σ : gmap string string) k :
  tmp ≠ path →
  k < length (_update_file_ops tmp path update σ) →
  (is_Some (σ !! path) →
     interrupted k tmp path update σ !! path = σ !! path)
  ∧ (σ !! path = None →
     interrupted k tmp path update σ !! path =
       if k is 0 then None else Some "")
  ∧ Forall (λ op, ∀ f data, op = WriteTo f data → f = tmp)
      (_update_file_ops tmp path update σ)
  ∧ last (_update_file_ops tmp path update σ) = Some (Move tmp path)
  ∧ _update_file tmp path update σ !! path =
      Some (updated_text (file_text σ path) update).
Proof.
  intros Hne Hk.
  destruct (_update_file_ops_split tmp path update σ) as (o & Ho & Hops).
  unfold interrupted. rewrite Hops in Hk |- *.
  rewrite length_app in Hk. cbn [length] in Hk.
  rewrite take_app_le by (cbn [length]; lia).
  pose proof (writes_on_tmp tmp (scan update (lines_of (file_text σ path))))
    as Hw.
  split; [|split; [|split; [|split]]].
  - intros Hsome. destruct Ho as [[-> _]|[_ Hnone]].
    + apply (foldl_on_tmp tmp); [done|]. apply Forall_take.
      apply Forall_cons; split; [done|].
      apply Forall_cons; split; [done|exact Hw].
    + rewrite Hnone in Hsome. by destruct Hsome.
  - intros Hnone. destruct Ho as [[_ Hsome]|[-> _]].
    + rewrite Hnone in Hsome. by destruct Hsome.
    + destruct k as [|k]; [done|]. cbn [take foldl apply_op].
      rewrite Hnone. rewrite (foldl_on_tmp tmp).
      * by rewrite lookup_insert_eq.
      * done.
      * apply Forall_take. apply Forall_cons; split; [done|exact Hw].
  - apply Forall_app. split.
    + constructor; [by destruct Ho as [[-> _]|[-> _]]|].
      constructor; [done|].
      eapply Forall_impl; [exact Hw|]. intros op Hop f data ->. done.
    + constructor; [done|constructor].
  - by rewrite last_snoc.
  - by apply _update_file_lookup.
Qed.

Lemma update_file_atomic_witness :
  let σ : gmap string string := {["MODULE.bazel" := "a" +:+ nl]} in
  interrupted 4 "/tmp/tmp1" "MODULE.bazel" "new" σ !! "MODULE.bazel"
  = σ !! "MODULE.bazel"
  ∧ interrupted 4 "/tmp/tmp1" "device.bazelrc" "new" σ !! "device.bazelrc"
  = Some "".
Proof.
  cbv zeta. split.
  - refine (proj1 (update_file_atomic "/tmp/tmp1" "MODULE.bazel" "new"
                     {["MODULE.bazel" := "a" +:+ nl]} 4 _ _) _).
    + discriminate.
    + vm_compute. lia.
    + by eexists.
  - refine (proj1 (proj2 (update_file_atomic "/tmp/tmp1" "device.bazelrc" "new"
                     {["MODULE.bazel" := "a" +:+ nl]} 4 _ _)) _).
    + discriminate.
    + vm_compute. lia.
    + reflexivity.
Defined.

(** ** Marker lines *)

Lemma lines_of_no_nl t :
  no_nl t = true → lines_of t = if t is "" then [] else [t].
Proof.
  induction t as [|c t IH]; [done|].
  cbn [no_nl]. intros [Hc Ht]%andb_true_iff. apply negb_true_iff in Hc.
  cbn [lines_of]. rewrite Hc, (IH Ht). by destruct t.
Qed.

Lemma no_nl_not_marker l :
  no_nl l = true → is_begin l = false ∧ is_end l = false.
Proof. intros Hl. split; by apply no_nl_contains. Qed.

(** ** [_get_url] and [_download] *)

Section download_facts.
Context `{Runtime}.
Implicit Types (self : KleafProjectSetter) (remote out : string).

Lemma _get_url_cases self remote fmt :
  url_fmt self = Some fmt →
  _get_url self remote =
  match str_format fmt (build_id self) (build_target self) (quote remote) with
  | Raise e => Raise e
  | Return url =>
      match str_format fmt (Some _FAKE_BUILD_ID) (build_target self)
              (quote remote) with
      | Raise e => Raise e
      | Return fake =>
          if negb (truthy (build_id self)) && negb (bool_decide (url = fake))
          then Return None else Return (Some url)
      end
  end.
Proof. intros Hfmt. unfold _get_url. by rewrite Hfmt. Qed.

(** C9: [_get_url] returns [None] exactly when [build_id] is unset ([None]
    or empty) and formatting with the placeholder in place of the build id
    gives another text than formatting with [build_id]; when the two texts
    are the same, that is, when the format does not depend on the build id,
    the url is returned whether or not [build_id] is set. *)
Theorem get_url_none_iff self remote :
  (_get_url self remote = Return None ↔
     truthy (build_id self) = false
     ∧ ∃ fmt url fake,
         url_fmt self = Some fmt
         ∧ str_format fmt (build_id self) (build_target self) (quote remote)
           = Return url
         ∧ str_format fmt (Some _FAKE_BUILD_ID) (build_target self)
             (quote remote) = Return fake
         ∧ url ≠ fake)
  ∧ (∀ fmt url,
       url_fmt self = Some fmt →
       str_format fmt (build_id self) (build_target self) (quote remote)
         = Return url →
       str_format fmt (Some _FAKE_BUILD_ID) (build_target self) (quote remote)
         = Return url →
       _get_url self remote = Return (Some url)).
Proof.
  split; [split|].
  - unfold _get_url. destruct (url_fmt self) as [fmt|]; [|done].
    destruct (str_format fmt (build_id self) _ _) as [url|] eqn:Hurl; [|done].
    destruct (str_format fmt (Some _) _ _) as [fake|] eqn:Hfake; [|done].
    destruct (truthy (build_id self)); cbn [negb andb]; [done|].
    case_bool_decide as Hne; cbn [negb]; [done|]. intros _.
    split; [done|]. by exists fmt, url, fake.
  - intros (Hid & fmt & url & fake & Hfmt & Hurl & Hfake & Hne).
    rewrite (_get_url_cases _ _ fmt Hfmt), Hurl, Hfake, Hid.
    by rewrite bool_decide_eq_false_2.
  - intros fmt url Hfmt Hurl Hfake.
    rewrite (_get_url_cases _ _ fmt Hfmt), Hurl, Hfake.
    by rewrite bool_decide_eq_true_2, andb_false_r.
Qed.

End download_facts.

Lemma get_url_none_iff_witness :
  @_get_url plain_runtime
    (setter_without_id (Some "https://ci/{build_id}/{build_target}/{filename}"))
    "boot.img" = Return None
  ∧ @_get_url plain_runtime
      (setter_without_id (Some "https://ci/{build_target}/{filename}"))
      "boot.img" = Return (Some "https://ci/kernel_aarch64/boot.img").
Proof.
  split.
  - apply (proj1 (@get_url_none_iff plain_runtime _ _)).
    split; [reflexivity|].
    exists "https://ci/{build_id}/{build_target}/{filename}",
      "https://ci/None/kernel_aarch64/boot.img",
      "https://ci/__FAKE_BUILD_NUMBER_PLACEHOLDER__/kernel_aarch64/boot.img".
    split; [reflexivity|]. split; [reflexivity|]. split; [reflexivity|].
    discriminate.
  - apply (proj2 (@get_url_none_iff plain_runtime _ _)
             "https://ci/{build_target}/{filename}"); reflexivity.
Defined.

(** With a build id the same format gives a url and the command is run. *)
Example download_runs_with_build_id :
  @_download plain_runtime
    {| build_id := Some "6148204"; build_target := Some "kernel_aarch64";
       ddk_workspace := None; local := false; kleaf_repo := None;
       prebuilts_dir := None;
       url_fmt := Some "https://ci/{build_id}/{build_target}/{filename}" |}
    "dir/boot.img" "out/boot.img" =
  Effects []
    [["python3"; "/build/kernel/init/init_download.py";
      "https://ci/6148204/kernel_aarch64/dir%2Fboot.img"; "out/boot.img"]]
    (Return ()).
Proof. reflexivity. Qed.

(** An exception of [str.format] leaves [_download] as it is raised. *)
Example download_raises_on_unknown_field :
  ending (@_download plain_runtime
            (setter_without_id (Some "https://ci/{branch}/{filename}"))
            "boot.img" "out/boot.img") = Raise KeyError.
Proof. reflexivity. Qed.

(** * Further properties *)

(** ** [_update_file]: the whole file system after a call *)

Section update_file_more.
Implicit Types (σ : gmap string string) (tmp path update input : string)
  (l : string) (ls pre body : list string) (a s w : bool).

Lemma _update_file_eq tmp path update σ :
  tmp ≠ path →
  _update_file tmp path update σ =
  <[path := updated_text (file_text σ path) update]> (delete tmp σ).
Proof.
  intros Hne. unfold _update_file, _update_file_ops.
  cbn [foldl]. rewrite foldl_app. cbn [foldl].
  rewrite (foldl_writes tmp _ _ "") by (cbn [apply_op]; by rewrite lookup_insert_eq).
  cbn [apply_op]. rewrite lookup_insert_eq, str_app_nil_l.
  fold (updated_text (file_text σ path) update).
  apply map_eq. intros q. destruct (decide (q = path)) as [->|Hq].
  - by rewrite !lookup_insert_eq.
  - rewrite !(lookup_insert_ne _ path) by done.
    destruct (decide (q = tmp)) as [->|Hq'].
    + by rewrite !lookup_delete_eq.
    + rewrite !lookup_delete_ne, !(lookup_insert_ne _ tmp) by done.
      case_bool_decide; cbn [apply_op]; [done|].
      destruct (σ !! path); [done|]. by rewrite lookup_insert_ne.
Qed.

Lemma _update_file_other tmp path update σ q :
  tmp ≠ path → q ≠ path → q ≠ tmp →
  _update_file tmp path update σ !! q = σ !! q.
Proof.
  intros Hne Hq Hq'. rewrite _update_file_eq by done.
  by rewrite lookup_insert_ne, lookup_delete_ne.
Qed.

(** X1: a call gives the target its new content and leaves no file under
    the temporary name; every other file is as it was. *)
Theorem update_file_closed_form tmp path update σ :
  tmp ≠ path →
  _update_file tmp path update σ =
  <[path := updated_text (file_text σ path) update]> (delete tmp σ).
Proof. apply _update_file_eq. Qed.

Lemma update_file_closed_form_witness :
  let σ : gmap string string :=
    {["MODULE.bazel" := "a" +:+ nl; "BUILD.bazel" := "b" +:+ nl]} in
  _update_file "/tmp/tmp1" "MODULE.bazel" "new" σ =
  <[ "MODULE.bazel" := updated_text (file_text σ "MODULE.bazel") "new" ]>
    (delete "/tmp/tmp1" σ).
Proof.
  cbv zeta. refine (update_file_closed_form _ _ _ _ _). discriminate.
Defined.
End update_file_more.

(** ** [_update_file]: what every output holds *)

Section always_a_section.
Implicit Types (σ : gmap string string) (tmp path update input : string)
  (l : string) (ls pre body : list string) (a s w : bool).

Lemma has_begin_begin_free ls : has_begin ls = negb (begin_free ls).
Proof.
  induction ls as [|l ls IH]; [done|].
  cbn [has_begin begin_free existsb forallb]. fold (has_begin ls) (begin_free ls).
  rewrite IH. by destruct (is_begin l).
Qed.

(** Whatever the input, the marker and the replacement are written once at
    least, one after the other. *)
Lemma emitted_has_block update ls a s :
  ∃ pre post,
    emitted update a s false ls =
    pre ++ _FILE_MARKER_BEGIN :: (update +:+ nl) :: post.
Proof.
  revert a s. induction ls as [|l ls IH]; intros a s.
  - by exists [], [_FILE_MARKER_END].
  - cbn [emitted]. destruct a.
    + by eexists [], _.
    + cbn [orb app].
      destruct (IH (is_begin l)
                  (if is_begin l then true
                   else if is_end l then false else s)) as (pre & post & ->).
      eexists (_ ++ pre), post. by rewrite <-app_assoc.
Qed.

Lemma updated_text_has_begin input update :
  has_begin (lines_of (updated_text input update)) = true.
Proof.
  destruct (has_begin (lines_of input)) eqn:Hin.
  - rewrite lines_of_updated_text by by right.
    destruct (emitted_has_block update (lines_of input) false false)
      as (pre & post & ->).
    unfold has_begin. rewrite flat_map_app, existsb_app. cbn [flat_map].
    change (lines_of _FILE_MARKER_BEGIN) with [_FILE_MARKER_BEGIN].
    cbn [app existsb]. by rewrite is_begin_BEGIN, orb_true_r.
  - rewrite has_begin_begin_free in Hin. apply negb_false_iff in Hin.
    rewrite updated_text_append by done.
    destruct (lines_of_appended input update) as (s0 & t & _ & _ & _ & ->).
    unfold has_begin. rewrite existsb_app. cbn [existsb].
    by rewrite is_begin_glued, orb_true_r.
Qed.

(** X2: after any call, whatever the file held and whatever the replacement
    is, the file holds a begin-marker line, and the begin marker directly
    followed by the replacement and a line feed. *)
Theorem update_file_always_has_section tmp path update σ :
  tmp ≠ path →
  has_begin (lines_of (file_text (_update_file tmp path update σ) path)) = true
  ∧ ∃ before after,
      file_text (_update_file tmp path update σ) path =
      before +:+ _FILE_MARKER_BEGIN +:+ update +:+ nl +:+ after.
Proof.
  intros Hne. rewrite file_text_update by done.
  split; [apply updated_text_has_begin|].
  rewrite updated_text_emitted.
  destruct (emitted_has_block update (lines_of (file_text σ path)) false false)
    as (pre & post & ->).
  exists (text_of pre), (text_of post).
  rewrite text_of_app, !text_of_cons. by rewrite !str_app_assoc.
Qed.

Lemma update_file_always_has_section_witness :
  let σ : gmap string string := {["f" := "a"]} in
  has_begin (lines_of (file_text (_update_file "t" "f" "new" σ) "f")) = true.
Proof.
  cbv zeta. refine (proj1 (update_file_always_has_section "t" "f" "new" _ _)).
  discriminate.
Defined.

(** A file that ends with a line feed still does after a call. *)
Lemma emitted_complete update ls a s w :
  forallb complete ls = true →
  forallb complete (emitted update a s w ls) = true.
Proof.
  revert a s w. induction ls as [|l ls IH]; intros a s w.
  - intros _. cbn [emitted]. destruct w; [done|].
    cbn [forallb]. by rewrite complete_app_nl.
  - cbn [forallb emitted]. intros [Hl Hls]%andb_true_iff.
    rewrite !forallb_app, (IH _ _ _ Hls), andb_true_r.
    apply andb_true_iff. split.
    + destruct a; [|done]. cbn [forallb]. by rewrite complete_app_nl.
    + destruct (if is_begin l then true else if is_end l then false else s);
        [done|]. cbn [forallb]. by rewrite Hl.
Qed.

Lemma complete_text_of cs : forallb complete cs = true → complete (text_of cs) = true.
Proof.
  induction cs as [|c cs IH]; [done|].
  cbn [forallb]. intros [Hc Hcs]%andb_true_iff.
  rewrite text_of_cons. apply complete_app_complete; auto.
Qed.

(** X4: when the file is empty or ends with a line feed, so does the file
    written by [_update_file]. *)
Theorem update_file_keeps_final_newline tmp path update σ :
  tmp ≠ path →
  complete (file_text σ path) = true →
  complete (file_text (_update_file tmp path update σ) path) = true.
Proof.
  intros Hne Hin. rewrite file_text_update, updated_text_emitted by done.
  apply complete_text_of, emitted_complete. by apply complete_lines_of.
Qed.

Lemma update_file_keeps_final_newline_witness :
  let σ : gmap string string :=
    {["f" := "a" +:+ nl +:+ _FILE_MARKER_BEGIN +:+ "old" +:+ nl]} in
  complete (file_text (_update_file "t" "f" "new" σ) "f") = true.
Proof.
  cbv zeta.
  refine (update_file_keeps_final_newline "t" "f" "new" _ _ _);
    [discriminate|reflexivity].
Defined.
End always_a_section.

(** ** [_update_file]: one replacement after another *)

Section rerun_other.
Variables u1 u2 : string.
Hypothesis u1_free : marker_free (lines_of (u1 +:+ nl)) = true.
Implicit Types (l : string) (ls rest : list string) (a s w : bool).

(** A section written with [u1] is found by a run with [u2], which writes
    [u2] in its place. *)
Lemma emitted_block_other rest s w :
  emitted u2 false s w (_FILE_MARKER_BEGIN :: lines_of (u1 +:+ nl) ++ rest) =
  [_FILE_MARKER_BEGIN; u2 +:+ nl] ++ emitted u2 false true true rest.
Proof.
  cbn [emitted]. rewrite is_begin_BEGIN. cbn [app].
  rewrite emitted_skip_free by auto using update_lines_nonempty.
  by rewrite orb_true_r.
Qed.

Lemma emitted_rerun_other ls :
  forallb one_line ls = true →
  ∀ a s w s2, (s2 = true → s = true) → (a = true → s = true) →
  emitted u2 false s2 w (flat_map lines_of (emitted u1 a s w ls)) =
  emitted u2 a s w ls.
Proof.
  induction ls as [|l ls IH]; intros Hls a s w s2 Hs2 Ha.
  - cbn [emitted]. destruct w; [done|].
    change [_FILE_MARKER_BEGIN; u1 +:+ nl; _FILE_MARKER_END]
      with ([_FILE_MARKER_BEGIN; u1 +:+ nl] ++ [_FILE_MARKER_END]).
    rewrite flat_map_block, emitted_block_other. reflexivity.
  - cbn [forallb] in Hls. apply andb_true_iff in Hls as [Hl Hls].
    specialize (IH Hls). cbn [emitted].
    assert (∀ rest, flat_map lines_of ([l] ++ rest) = l :: flat_map lines_of rest)
      as Hcopy.
    { intros rest. cbn [app flat_map]. by rewrite (one_line_lines_of l Hl). }
    destruct a.
    + rewrite (Ha eq_refl), orb_true_r, flat_map_block, emitted_block_other.
      f_equal. destruct (is_begin l) eqn:Hb.
      * cbn [app]. by apply IH.
      * destruct (is_end l) eqn:He.
        -- rewrite Hcopy. cbn [emitted]. rewrite Hb, He. cbn [app orb].
           f_equal. by apply IH.
        -- cbn [app]. by apply IH.
    + rewrite orb_false_r. cbn [app]. destruct (is_begin l) eqn:Hb.
      * cbn [app]. by apply IH.
      * destruct (is_end l) eqn:He.
        -- change (l :: ?x) with ([l] ++ x). rewrite Hcopy. cbn [emitted].
           rewrite Hb, He. cbn [app orb]. rewrite orb_false_r.
           f_equal. by apply IH.
        -- destruct s.
           ++ cbn [app]. by apply IH.
           ++ destruct s2; [by specialize (Hs2 eq_refl)|].
              change (l :: ?x) with ([l] ++ x). rewrite Hcopy. cbn [emitted].
              rewrite Hb, He. cbn [app orb]. rewrite orb_false_r.
              f_equal. by apply IH.
Qed.

Lemma updated_text_last_wins input :
  complete input = true ∨ has_begin (lines_of input) = true →
  updated_text (updated_text input u1) u2 = updated_text input u2.
Proof.
  intros Hin. rewrite (updated_text_emitted (updated_text _ _)).
  rewrite lines_of_updated_text by done.
  rewrite emitted_rerun_other; auto using lines_of_one_line.
  by rewrite <-updated_text_emitted.
Qed.
End rerun_other.

(** ** [_update_file]: a begin marker that is never closed *)

(** X6: when the only begin-marker line of the input is followed by no
    end-marker line, every line after it is dropped.  If lines follow, the
    output ends with the begin marker, the replacement and a line feed, and
    holds no end marker; if the begin-marker line is the last line, the end
    marker is written as well. *)
Theorem update_file_unclosed_section tmp path update pre b body
    (σ : gmap string string) :
  tmp ≠ path →
  lines_of (file_text σ path) = pre ++ b :: body →
  begin_free pre = true → is_begin b = true → marker_free body = true →
  _update_file tmp path update σ !! path =
  Some (text_of pre +:+ _FILE_MARKER_BEGIN +:+ update +:+ nl
        +:+ (if body is [] then _FILE_MARKER_END else "")).
Proof.
  intros Hne Hin Hpre Hb Hbody.
  rewrite _update_file_lookup by done. f_equal.
  rewrite updated_text_emitted, Hin, emitted_copy by done.
  rewrite text_of_app. f_equal. cbn [emitted]. rewrite Hb. cbn [app orb].
  destruct body as [|x body].
  - cbn [emitted text_of foldr]. by rewrite str_app_nil_r, !str_app_assoc.
  - rewrite <-(app_nil_r (x :: body)), emitted_skip_free by done.
    cbn [emitted orb app text_of foldr]. by rewrite !str_app_nil_r.
Qed.

Lemma update_file_unclosed_section_witness :
  let σ : gmap string string :=
    {["f" := "a" +:+ nl +:+ _FILE_MARKER_BEGIN +:+ "x" +:+ nl +:+ "y"]} in
  _update_file "t" "f" "new" σ !! "f" =
  Some (text_of ["a" +:+ nl] +:+ _FILE_MARKER_BEGIN +:+ "new" +:+ nl +:+ "")
  ∧ _update_file "t" "g" "new" {["g" := _FILE_MARKER_BEGIN]} !! "g" =
    Some (text_of [] +:+ _FILE_MARKER_BEGIN +:+ "new" +:+ nl
          +:+ _FILE_MARKER_END).
Proof.
  cbv zeta. split.
  - refine (update_file_unclosed_section "t" "f" "new" ["a" +:+ nl]
              _FILE_MARKER_BEGIN ["x" +:+ nl; "y"] _ _ _ _ _ _);
      [discriminate|reflexivity..].
  - refine (update_file_unclosed_section "t" "g" "new" []
              _FILE_MARKER_BEGIN [] _ _ _ _ _ _);
      [discriminate|reflexivity..].
Defined.

(** ** [_get_url] and [_download]: the other cases *)

Section download_more.
Context `{Runtime}.
Implicit Types (self : KleafProjectSetter) (remote out fmt url fake : string).

(** X7: with a build id, [_get_url] never answers [None]: when both
    formattings succeed it returns the url made with the build id, even if
    the format ignores the build id. *)
Theorem get_url_with_build_id self remote :
  truthy (build_id self) = true →
  _get_url self remote ≠ Return None
  ∧ ∀ fmt url fake,
      url_fmt self = Some fmt →
      str_format fmt (build_id self) (build_target self) (quote remote)
        = Return url →
      str_format fmt (Some _FAKE_BUILD_ID) (build_target self) (quote remote)
        = Return fake →
      _get_url self remote = Return (Some url).
Proof.
  intros Hid. split.
  - unfold _get_url. destruct (url_fmt self) as [fmt|]; [|done].
    destruct (str_format fmt (build_id self) _ _); [|done].
    destruct (str_format fmt (Some _) _ _); [|done].
    by rewrite Hid.
  - intros fmt url fake Hfmt Hurl Hfake.
    by rewrite (_get_url_cases _ _ fmt Hfmt), Hurl, Hfake, Hid.
Qed.

(** X8: with a format, a build id and a url that is not empty, [_download]
    logs nothing and runs one command, [python3] on [init_download.py] next
    to the script with the url and the output file name; it ends as that
    command ends, so a failing download raises. *)
Theorem download_runs_command self remote out fmt url fake :
  url_fmt self = Some fmt → fmt ≠ "" →
  truthy (build_id self) = true →
  str_format fmt (build_id self) (build_target self) (quote remote)
    = Return url →
  str_format fmt (Some _FAKE_BUILD_ID) (build_target self) (quote remote)
    = Return fake →
  url ≠ "" →
  let command := ["python3"; script_dir +:+ "/init_download.py"; url; out] in
  _download self remote out = Effects [] [command] (check_call command).
Proof.
  intros Hfmt Hne Hid Hurl Hfake Hu. cbv zeta. unfold _download.
  rewrite (_get_url_cases _ _ fmt Hfmt), Hurl, Hfake, Hid, Hfmt.
  cbn [truthy negb andb default from_option id].
  by rewrite !bool_decide_eq_false_2.
Qed.

(** X9: a url that formats to the empty text is taken for a missing build
    id, even when a build id is given: the error about [--build_id] is
    logged and no command is run. *)
Theorem download_empty_url self remote out fmt fake :
  url_fmt self = Some fmt → fmt ≠ "" →
  str_format fmt (build_id self) (build_target self) (quote remote)
    = Return "" →
  str_format fmt (Some _FAKE_BUILD_ID) (build_target self) (quote remote)
    = Return fake →
  _download self remote out =
  Effects ["Unable to download " +:+ remote
           +:+ " file because --build_id is missing."] [] (Return ()).
Proof.
  intros Hfmt Hne Hurl Hfake. unfold _download.
  rewrite (_get_url_cases _ _ fmt Hfmt), Hurl, Hfake, Hfmt.
  cbn [truthy negb]. rewrite bool_decide_eq_false_2 by done. cbn [negb].
  by destruct (negb (truthy (build_id self)) && _).
Qed.

(** X10: a call of [_download] does one of three things and nothing else:
    it logs one error, runs nothing and returns; or it logs nothing, runs
    nothing and raises what [_get_url] raised; or it logs nothing, runs one
    command and ends as the command ends.  It never logs after running a
    command and never runs a command after logging. *)
Theorem download_three_ways self remote out :
  (∃ message, _download self remote out = Effects [message] [] (Return ()))
  ∨ (∃ e, _get_url self remote = Raise e
          ∧ _download self remote out = Effects [] [] (Raise e))
  ∨ (∃ url, _get_url self remote = Return (Some url) ∧ url ≠ ""
            ∧ _download self remote out =
              Effects []
                [["python3"; script_dir +:+ "/init_download.py"; url; out]]
                (check_call
                   ["python3"; script_dir +:+ "/init_download.py"; url; out])).
Proof.
  unfold _download. destruct (truthy (url_fmt self)); cbn [negb].
  2:{ left. by eexists. }
  destruct (_get_url self remote) as [[url|]|e].
  - destruct (decide (url = "")) as [->|Hu].
    + left. by eexists.
    + right. right. exists url. cbn [truthy]. by rewrite bool_decide_eq_false_2.
  - left. by eexists.
  - right. left. by exists e.
Qed.
End download_more.

Lemma get_url_with_build_id_witness :
  @_get_url plain_runtime
    {| build_id := Some "6148204"; build_target := Some "kernel_aarch64";
       ddk_workspace := None; local := false; kleaf_repo := None;
       prebuilts_dir := None;
       url_fmt := Some "https://ci/{build_target}/{filename}" |}
    "boot.img" = Return (Some "https://ci/kernel_aarch64/boot.img").
Proof.
  refine (proj2 (@get_url_with_build_id plain_runtime _ "boot.img" _)
            "https://ci/{build_target}/{filename}" _
            "https://ci/kernel_aarch64/boot.img" _ _ _); reflexivity.
Defined.

Lemma download_runs_command_witness :
  @_download plain_runtime
    {| build_id := Some "6148204"; build_target := Some "kernel_aarch64";
       ddk_workspace := None; local := false; kleaf_repo := None;
       prebuilts_dir := None;
       url_fmt := Some "https://ci/{build_id}/{build_target}/{filename}" |}
    "dir/boot.img" "out/boot.img" =
  Effects []
    [["python3"; "/build/kernel/init" +:+ "/init_download.py";
      "https://ci/6148204/kernel_aarch64/dir%2Fboot.img"; "out/boot.img"]]
    (Return ()).
Proof.
  refine (@download_runs_command plain_runtime _ "dir/boot.img" "out/boot.img"
            "https://ci/{build_id}/{build_target}/{filename}"
            "https://ci/6148204/kernel_aarch64/dir%2Fboot.img"
            "https://ci/__FAKE_BUILD_NUMBER_PLACEHOLDER__/kernel_aarch64/dir%2Fboot.img"
            _ _ _ _ _ _);
    [reflexivity|discriminate|reflexivity|reflexivity|reflexivity|discriminate].
Defined.

Lemma download_empty_url_witness :
  @_download plain_runtime
    {| build_id := Some "6148204"; build_target := Some "kernel_aarch64";
       ddk_workspace := None; local := false; kleaf_repo := None;
       prebuilts_dir := None; url_fmt := Some "{filename}" |}
    "" "out/boot.img" =
  Effects ["Unable to download " +:+ ""
           +:+ " file because --build_id is missing."] [] (Return ()).
Proof.
  refine (@download_empty_url plain_runtime _ "" "out/boot.img" "{filename}"
            "" _ _ _ _);
    [reflexivity|discriminate|reflexivity|reflexivity].
Defined.

(** ** Paths *)

Section path_facts.
Implicit Types (p q : PurePath) (s t : string) (names : list string).

Lemma is_absolute_relative names : is_absolute (Path "" names) = false.
Proof. reflexivity. Qed.

Lemma relative_to_Return p q r :
  relative_to p q = Return r →
  path_root p = path_root q
  ∧ path_names p = path_names q ++ path_names r
  ∧ path_root r = "".
Proof.
  unfold relative_to. case_bool_decide as Hroot; cbn [andb]; [|done].
  case_bool_decide as Hpre; [|done]. intros [= <-].
  destruct Hpre as [k Hk]. cbn. rewrite Hk.
  by rewrite drop_app_length.
Qed.

Lemma relative_to_Raise p q e :
  relative_to p q = Raise e →
  ¬ (path_root p = path_root q ∧ path_names q `prefix_of` path_names p).
Proof.
  unfold relative_to. intros Hr [Hroot Hpre].
  by rewrite !bool_decide_eq_true_2 in Hr.
Qed.

Lemma joinpath_relative p names :
  joinpath p (Path "" names) = Path (path_root p) (path_names p ++ names).
Proof. reflexivity. Qed.

Lemma joinpath_absolute p q : is_absolute q = true → joinpath p q = q.
Proof. intros Hq. unfold joinpath. by rewrite Hq. Qed.

Lemma parse_root_slash rest : parse_root (String slash rest) ≠ "".
Proof.
  destruct rest as [|c2 [|c3 rest]]; cbn [parse_root];
    rewrite ?bool_decide_eq_true_2 by done; repeat case_bool_decide; done.
Qed.

Lemma parse_root_other c rest : c ≠ slash → parse_root (String c rest) = "".
Proof.
  intros Hc. destruct rest as [|c2 [|c3 rest]]; cbn [parse_root];
    by rewrite bool_decide_eq_false_2.
Qed.

Lemma parse_root_no_nl s : no_nl (parse_root s) = true.
Proof.
  destruct s as [|c1 [|c2 [|c3 s]]]; cbn [parse_root];
    repeat case_bool_decide; reflexivity.
Qed.

Lemma split_on_no_nl c s :
  no_nl s = true → Forall (λ x, no_nl x = true) (split_on c s).
Proof.
  induction s as [|c' s IH]; [by repeat constructor|].
  cbn [no_nl split_on]. intros [Hc Hs]%andb_true_iff.
  specialize (IH Hs). case_bool_decide.
  - by constructor.
  - destruct (split_on c s) as [|x xs]; [repeat constructor; cbn; by rewrite Hc|].
    inversion IH; subst. constructor; [|done]. cbn [no_nl].
    by apply andb_true_iff.
Qed.

Lemma Path_of_no_nl s : no_nl s = true → path_no_nl (Path_of s).
Proof.
  intros Hs. split; [apply parse_root_no_nl|]. cbn [Path_of path_names].
  apply Forall_forall. intros x [_ Hx]%list_elem_of_filter.
  revert x Hx. apply Forall_forall. by apply split_on_no_nl.
Qed.

Lemma concat_no_nl sep names :
  no_nl sep = true → Forall (λ x, no_nl x = true) names →
  no_nl (String.concat sep names) = true.
Proof.
  intros Hsep. induction 1 as [|x names Hx _ IH]; [done|].
  cbn [String.concat]. destruct names as [|y names]; [done|].
  change (no_nl (x +:+ sep +:+ String.concat sep (y :: names)) = true).
  by rewrite !no_nl_app, Hx, Hsep, IH.
Qed.

Lemma path_str_no_nl p : path_no_nl p → no_nl (path_str p) = true.
Proof.
  intros [Hroot Hnames]. unfold path_str. destruct (is_absolute p).
  - rewrite no_nl_app, Hroot. by apply concat_no_nl.
  - destruct (path_names p) eqn:E; [done|]. rewrite <-E in *.
    by apply concat_no_nl.
Qed.

Lemma joinpath_no_nl p q : path_no_nl p → path_no_nl q → path_no_nl (joinpath p q).
Proof.
  intros [Hp1 Hp2] [Hq1 Hq2]. unfold joinpath. destruct (is_absolute q).
  - done.
  - split; [done|]. cbn. by apply Forall_app.
Qed.

Lemma relative_to_no_nl p q r :
  relative_to p q = Return r → path_no_nl p → path_no_nl r.
Proof.
  intros (_ & Hnames & Hroot)%relative_to_Return [_ Hp]. split.
  - by rewrite Hroot.
  - rewrite Hnames in Hp. by apply Forall_app in Hp as [_ ?].
Qed.
End path_facts.

(** ** Texts given line by line *)

Section unlines_facts.
Implicit Types (s t a b : string) (c d : ascii) (bodies : list string).

Lemma str_app_last_inj a b c d :
  a +:+ String c "" = b +:+ String d "" → a = b ∧ c = d.
Proof.
  revert b. induction a as [|e a IH]; intros [|e' b] E.
  - by injection E as ->.
  - rewrite str_app_nil_l, str_app_cons in E. injection E as _ E.
    by destruct b.
  - rewrite str_app_nil_l, str_app_cons in E. injection E as _ E.
    by destruct a.
  - rewrite !str_app_cons in E. injection E as -> E.
    destruct (IH _ E) as [-> ->]. done.
Qed.

Lemma ends_with_hash_app a b : b ≠ "" → ends_with_hash (a +:+ b) = ends_with_hash b.
Proof.
  intros Hb. induction a as [|c a IH]; [done|].
  rewrite str_app_cons. cbn [ends_with_hash].
  destruct (a +:+ b) eqn:E; [|done]. destruct a; [|done].
  by rewrite str_app_nil_l in E.
Qed.

(** A line that does not end with [#] before its line feed holds no
    marker. *)
Lemma not_marker_line t :
  no_nl t = true → ends_with_hash t = false →
  is_begin (t +:+ nl) = false ∧ is_end (t +:+ nl) = false.
Proof.
  intros Ht Hh. pose proof (one_line_app_nl t Ht) as H1.
  split.
  - destruct (is_begin (t +:+ nl)) eqn:E; [exfalso|done].
    apply (one_line_contains _ _ H1) in E as [p E].
    rewrite <-str_app_assoc in E. apply str_app_last_inj in E as [-> _].
    by rewrite ends_with_hash_app in Hh.
  - destruct (is_end (t +:+ nl)) eqn:E; [exfalso|done].
    apply (one_line_contains _ _ H1) in E as [p E].
    rewrite <-str_app_assoc in E. apply str_app_last_inj in E as [-> _].
    by rewrite ends_with_hash_app in Hh.
Qed.

Lemma unlines_cons b bodies : unlines (b :: bodies) = b +:+ nl +:+ unlines bodies.
Proof. unfold unlines. cbn [fmap list_fmap]. by rewrite text_of_cons, str_app_assoc. Qed.

Lemma lines_of_unlines bodies :
  Forall (λ b, no_nl b = true) bodies →
  lines_of (unlines bodies) = (λ b, b +:+ nl) <$> bodies.
Proof.
  induction 1 as [|b bodies Hb _ IH]; [done|].
  rewrite unlines_cons, lines_of_first by done. cbn [fmap list_fmap].
  by rewrite IH.
Qed.

Lemma marker_free_unlines bodies :
  Forall (λ b, no_nl b = true ∧ ends_with_hash b = false) bodies →
  marker_free (lines_of (unlines bodies)) = true.
Proof.
  intros H. rewrite lines_of_unlines by (eapply Forall_impl; [exact H|]; by intros ? [? _]).
  induction H as [|b bodies [Hb1 Hb2] _ IH]; [done|].
  cbn [fmap list_fmap marker_free forallb].
  destruct (not_marker_line b Hb1 Hb2) as [-> ->]. done.
Qed.
End unlines_facts.

(** ** [abs_path] and [_try_rel_workspace] *)

(** X11: [abs_path] accepts exactly the texts that start with a slash, and
    answers the path of the text; on any other text it raises
    [ValueError]. *)
Theorem abs_path_accepts_rooted s :
  (∀ rest, s = String slash rest → abs_path s = Return (Path_of s))
  ∧ ((∀ rest, s ≠ String slash rest) → abs_path s = Raise ValueError).
Proof.
  unfold abs_path, is_absolute. cbn [Path_of path_root]. split.
  - intros rest ->. rewrite bool_decide_eq_false_2; [done|].
    apply parse_root_slash.
  - intros Hs. destruct s as [|c rest]; [done|].
    rewrite parse_root_other; [done|]. intros ->. by apply (Hs rest).
Qed.

Lemma abs_path_accepts_rooted_witness :
  abs_path "/work/ddk" = Return (Path "/" ["work"; "ddk"])
  ∧ abs_path "work/ddk" = Raise ValueError.
Proof.
  split.
  - refine (proj1 (abs_path_accepts_rooted "/work/ddk") "work/ddk" _).
    reflexivity.
  - refine (proj2 (abs_path_accepts_rooted "work/ddk") _).
    intros rest. discriminate.
Defined.

(** ** [_generate_bazelrc] *)

Section bazelrc_facts.
Implicit Types (self : KleafProjectSetter) (σ : gmap string string)
  (w k tmp : string) (K : PurePath).

Lemma bazelrc_content_unlines K :
  bazelrc_content K +:+ nl =
  unlines ["common --config=internet";
           "common --registry=file://" +:+ path_str K
             +:+ "/external/bazelbuild-bazel-central-registry";
           ""].
Proof.
  unfold bazelrc_content. rewrite !unlines_cons.
  change (unlines []) with "". by rewrite !str_app_assoc.
Qed.

Lemma bazelrc_content_free K :
  path_no_nl K → marker_free (lines_of (bazelrc_content K +:+ nl)) = true.
Proof.
  intros HK%path_str_no_nl. rewrite bazelrc_content_unlines.
  apply marker_free_unlines. repeat constructor.
  - by rewrite !no_nl_app, HK.
  - by rewrite <-str_app_assoc, ends_with_hash_app.
Qed.

(** The path written in the registry line. *)
Lemma generate_bazelrc_form self w k :
  ddk_workspace self = Some w → kleaf_repo self = Some k →
  ∃ logs K,
    (no_nl k = true → path_no_nl K)
    ∧ ∀ tmp σ,
        _generate_bazelrc tmp self σ =
        Outcome
          (logs ++ [_update_file_info
                      (joinpath (Path_of w) (Path_of _DEVICE_BAZELRC)) σ])
          (_update_file tmp
             (path_str (joinpath (Path_of w) (Path_of _DEVICE_BAZELRC)))
             (bazelrc_content K) σ)
          (Return ()).
Proof.
  intros Hw Hk. unfold _generate_bazelrc, _try_rel_workspace.
  rewrite Hw, Hk.
  destruct (relative_to (Path_of k) (Path_of w)) as [rel|e] eqn:Hrel.
  - eexists _, _. split; [|reflexivity]. intros Hnl.
    assert (path_no_nl rel) as Hrel'.
    { eapply relative_to_no_nl; [exact Hrel|]. by apply Path_of_no_nl. }
    destruct (is_absolute rel); [done|].
    apply joinpath_no_nl; [|done]. by apply Path_of_no_nl.
  - eexists _, _. split; [|reflexivity]. intros Hnl.
    assert (path_no_nl (Path_of k)) as Hk' by by apply Path_of_no_nl.
    destruct (is_absolute (Path_of k)); [done|].
    apply joinpath_no_nl; [|done]. by apply Path_of_no_nl.
Qed.

(** X14: the registry line of [device.bazelrc], for a [kleaf_repo] whose
    text holds no line feed.  When [kleaf_repo] is the workspace or lies
    under it, the line names it from [%workspace%] and
    nothing is warned; when [kleaf_repo] is absolute and lies elsewhere, the
    line names it as given and one warning is logged before the record of
    [_update_file]. *)
Theorem generate_bazelrc_registry tmp self w k σ :
  ddk_workspace self = Some w → kleaf_repo self = Some k →
  no_nl k = true →
  let ws := Path_of w in
  let kp := Path_of k in
  let bazelrc := joinpath ws (Path_of _DEVICE_BAZELRC) in
  (∀ rest,
     path_root kp = path_root ws → path_names kp = path_names ws ++ rest →
     _generate_bazelrc tmp self σ =
     Outcome [_update_file_info bazelrc σ]
       (_update_file tmp (path_str bazelrc)
          (bazelrc_content (Path "" ("%workspace%" :: rest))) σ)
       (Return ()))
  ∧ (is_absolute kp = true →
     ¬ (path_root kp = path_root ws ∧ path_names ws `prefix_of` path_names kp) →
     _generate_bazelrc tmp self σ =
     Outcome
       [(WARNING, "Path " +:+ path_str kp
                  +:+ " is not relative to DDK workspace " +:+ path_str ws
                  +:+ ", using absolute path.");
        _update_file_info bazelrc σ]
       (_update_file tmp (path_str bazelrc) (bazelrc_content kp) σ)
       (Return ())).
Proof.
  intros Hw Hk _ ws kp bazelrc.
  unfold _generate_bazelrc, _try_rel_workspace. rewrite Hw, Hk.
  fold ws kp bazelrc. unfold relative_to. split.
  - intros rest Hroot Hnames.
    rewrite !bool_decide_eq_true_2 by (done || by exists rest).
    cbn [andb]. rewrite Hnames, drop_app_length. reflexivity.
  - intros Habs Hnot.
    destruct (bool_decide (path_root kp = path_root ws)
              && bool_decide (path_names ws `prefix_of` path_names kp)) eqn:E.
    + apply andb_true_iff in E as [?%bool_decide_eq_true ?%bool_decide_eq_true].
      by destruct Hnot.
    + by rewrite Habs.
Qed.

Lemma generate_bazelrc_registry_witness :
  files (_generate_bazelrc "/tmp/t1"
           (setter_with_dirs (Some "/work/ddk") (Some "/work/ddk/kleaf") None) ∅) =
  _update_file "/tmp/t1" "/work/ddk/device.bazelrc"
    (bazelrc_content (Path "" ["%workspace%"; "kleaf"])) ∅
  ∧ logged (_generate_bazelrc "/tmp/t1"
              (setter_with_dirs (Some "/work/ddk") (Some "/opt/kleaf") None) ∅) =
    [(WARNING, "Path /opt/kleaf is not relative to DDK workspace /work/ddk, using absolute path.");
     (INFO, "Creating file /work/ddk/device.bazelrc.")].
Proof.
  split.
  - exact (f_equal files
      (proj1 (generate_bazelrc_registry "/tmp/t1"
                (setter_with_dirs (Some "/work/ddk") (Some "/work/ddk/kleaf") None)
                "/work/ddk" "/work/ddk/kleaf" ∅ eq_refl eq_refl eq_refl)
         ["kleaf"] eq_refl eq_refl)).
  - refine (f_equal logged
      (proj2 (generate_bazelrc_registry "/tmp/t1"
                (setter_with_dirs (Some "/work/ddk") (Some "/opt/kleaf") None)
                "/work/ddk" "/opt/kleaf" ∅ eq_refl eq_refl eq_refl)
         eq_refl _)).
    intros [_ [rest Hrest]]. vm_compute in Hrest. discriminate.
Defined.
End bazelrc_facts.

(** ** [_generate_module_bazel] *)

Section module_bazel_facts.
Context `{ConfigReader}.
Implicit Types (self : KleafProjectSetter) (σ : gmap string string)
  (w k d tmp R C : string).

Local Abbreviation good :=
  (λ b : string, no_nl b = true ∧ ends_with_hash b = false).

Lemma unlines_app bs1 bs2 : unlines (bs1 ++ bs2) = unlines bs1 +:+ unlines bs2.
Proof. unfold unlines. by rewrite fmap_app, text_of_app. Qed.

Lemma kleaf_dependency_unlines R : kleaf_dependency R = unlines (kleaf_lines R).
Proof.
  unfold kleaf_dependency, kleaf_lines. rewrite !unlines_cons.
  change (unlines []) with "". by rewrite !str_app_assoc, str_app_nil_r.
Qed.

Lemma local_prebuilts_unlines C R :
  local_prebuilts C R = unlines (prebuilts_lines C R).
Proof.
  unfold local_prebuilts, prebuilts_lines. rewrite !unlines_cons.
  change (unlines []) with "". by rewrite !str_app_assoc, str_app_nil_r.
Qed.

Lemma kleaf_lines_good R : no_nl R = true → Forall good (kleaf_lines R).
Proof.
  intros HR. unfold kleaf_lines. repeat constructor.
  - by rewrite !no_nl_app, HR.
  - by rewrite <-!str_app_assoc, ends_with_hash_app.
Qed.

Lemma prebuilts_lines_good C R :
  no_nl C = true → no_nl R = true → Forall good (prebuilts_lines C R).
Proof.
  intros HC HR. unfold prebuilts_lines. repeat constructor.
  - by rewrite !no_nl_app, HC.
  - by rewrite <-!str_app_assoc, ends_with_hash_app.
  - by rewrite !no_nl_app, HR.
  - by rewrite <-!str_app_assoc, ends_with_hash_app.
Qed.

Lemma str_app_eq_nil a b : a +:+ b = "" → a = "".
Proof. by destruct a. Qed.

Lemma kleaf_dependency_nonempty R : kleaf_dependency R ≠ "".
Proof. unfold kleaf_dependency. by intros ?%str_app_eq_nil. Qed.

Lemma unlines_free X :
  Forall good X → marker_free (lines_of (unlines X +:+ nl)) = true.
Proof.
  intros HX. change nl with (unlines [""]). rewrite <-unlines_app.
  apply marker_free_unlines, Forall_app. split; [done|]. by repeat constructor.
Qed.

(** What [_try_rel_workspace] returns holds no line feed when the path
    does not. *)
Lemma try_rel_workspace_no_nl self w t :
  ddk_workspace self = Some w → no_nl t = true →
  ∃ logs rel, _try_rel_workspace self (Path_of t) = (logs, Return rel)
              ∧ no_nl (path_str rel) = true.
Proof.
  intros Hw Ht. unfold _try_rel_workspace. rewrite Hw.
  destruct (relative_to (Path_of t) (Path_of w)) as [rel|e] eqn:Hrel.
  - eexists _, rel. split; [done|]. apply path_str_no_nl.
    eapply relative_to_no_nl; [exact Hrel|]. by apply Path_of_no_nl.
  - eexists _, _. split; [done|]. by apply path_str_no_nl, Path_of_no_nl.
Qed.

(** The two ways a call with a workspace ends when the configuration can
    be read: nothing to write, or one call of [_update_file] with a text
    that holds no marker line. *)
Lemma generate_module_bazel_form self w :
  ddk_workspace self = Some w →
  (∀ k, kleaf_repo self = Some k → no_nl k = true) →
  (∀ d, prebuilts_dir self = Some d →
     no_nl d = true
     ∧ ∃ C, read_download_configs
              (joinpath (Path_of d) (Path_of "download_configs.json"))
            = Return C
            ∧ no_nl C = true) →
  let module_bazel := joinpath (Path_of w) (Path_of _MODULE_BAZEL_FILE) in
  ∃ logs,
    (∀ tmp σ,
       _generate_module_bazel tmp self σ =
       Outcome (logs ++ [(INFO, "Nothing to update in "
                                 +:+ path_str module_bazel)])
         σ (Return ()))
    ∨ (∃ content,
         marker_free (lines_of (content +:+ nl)) = true
         ∧ ∀ tmp σ,
             _generate_module_bazel tmp self σ =
             Outcome (logs ++ [_update_file_info module_bazel σ])
               (_update_file tmp (path_str module_bazel) content σ)
               (Return ())).
Proof.
  intros Hw Hk Hd module_bazel. unfold _generate_module_bazel.
  rewrite Hw. fold module_bazel.
  destruct (kleaf_repo self) as [k|] eqn:Ek;
    destruct (prebuilts_dir self) as [d|] eqn:Ed.
  - destruct (try_rel_workspace_no_nl self w k Hw (Hk k eq_refl))
      as (logs1 & rel1 & -> & Hrel1).
    destruct (Hd d eq_refl) as (Hdnl & C & -> & HC).
    destruct (try_rel_workspace_no_nl self w d Hw Hdnl)
      as (logs2 & rel2 & -> & Hrel2).
    exists (logs1 ++ logs2). right. eexists. split; [|intros tmp σ].
    2:{ rewrite bool_decide_eq_false_2; [reflexivity|].
        intros E%str_app_eq_nil. by apply kleaf_dependency_nonempty in E. }
    rewrite kleaf_dependency_unlines, local_prebuilts_unlines.
    change nl with (unlines [""]) at 1. rewrite <-!unlines_app.
    apply unlines_free. apply Forall_app. split; [by apply kleaf_lines_good|].
    apply Forall_app. split; [by repeat constructor|].
    by apply prebuilts_lines_good.
  - destruct (try_rel_workspace_no_nl self w k Hw (Hk k eq_refl))
      as (logs1 & rel1 & -> & Hrel1).
    exists logs1. right. eexists. split; [|intros tmp σ].
    2:{ rewrite bool_decide_eq_false_2; [reflexivity|].
        apply kleaf_dependency_nonempty. }
    rewrite kleaf_dependency_unlines.
    apply unlines_free. by apply kleaf_lines_good.
  - destruct (Hd d eq_refl) as (Hdnl & C & -> & HC).
    destruct (try_rel_workspace_no_nl self w d Hw Hdnl)
      as (logs2 & rel2 & -> & Hrel2).
    exists ([] ++ logs2). right. eexists. split; [|intros tmp σ].
    2:{ rewrite bool_decide_eq_false_2; [reflexivity|]. done. }
    rewrite local_prebuilts_unlines, str_app_nil_l.
    change nl with (unlines [""]) at 1. rewrite <-!unlines_app.
    apply unlines_free. apply Forall_app.
    split; [by repeat constructor|]. by apply prebuilts_lines_good.
  - exists []. left. intros tmp σ. reflexivity.
Qed.

(** X16: when the configuration of the prebuilts cannot be read, the
    exception leaves [_generate_module_bazel] and no file is changed; a
    warning about [kleaf_repo] may have been logged before. *)
Theorem generate_module_bazel_read_fails tmp self w d e σ :
  ddk_workspace self = Some w →
  prebuilts_dir self = Some d →
  read_download_configs
    (joinpath (Path_of d) (Path_of "download_configs.json")) = Raise e →
  files (_generate_module_bazel tmp self σ) = σ
  ∧ finished (_generate_module_bazel tmp self σ) = Raise e
  ∧ length (logged (_generate_module_bazel tmp self σ)) ≤ 1.
Proof.
  intros Hw Hd Hread. unfold _generate_module_bazel, _try_rel_workspace.
  rewrite Hw, Hd, Hread.
  destruct (kleaf_repo self) as [k|]; [|by cbn; split; [|split; [|lia]]].
  destruct (relative_to (Path_of k) (Path_of w)); cbn; split; try done;
    split; try done; lia.
Qed.
End module_bazel_facts.

Lemma generate_module_bazel_read_fails_witness :
  let self :=
    setter_with_dirs (Some "/work/ddk") (Some "/opt/kleaf")
      (Some "/work/ddk/prebuilts") in
  let σ : gmap string string := {["/work/ddk/MODULE.bazel" := "a" +:+ nl]} in
  files (@_generate_module_bazel no_config "/tmp/t1" self σ) = σ
  ∧ finished (@_generate_module_bazel no_config "/tmp/t1" self σ)
    = Raise Unmodelled.
Proof.
  cbv zeta.
  destruct (@generate_module_bazel_read_fails no_config "/tmp/t1"
              (setter_with_dirs (Some "/work/ddk") (Some "/opt/kleaf")
                 (Some "/work/ddk/prebuilts"))
              "/work/ddk" "/work/ddk/prebuilts" Unmodelled
              {["/work/ddk/MODULE.bazel" := "a" +:+ nl]}
              eq_refl eq_refl eq_refl) as (H1 & H2 & _).
  exact (conj H1 H2).
Defined.

(** ** The generated files: what is left alone *)

(** X17: [_generate_bazelrc] and [_generate_module_bazel] change no file
    but their target, [device.bazelrc] and [MODULE.bazel] of the workspace:
    any other file, the temporary name apart, is after the call as it was
    before, also when the call logs a warning, has nothing to write or ends
    with an exception. *)
Theorem generated_files_frame `{ConfigReader} tmp self
    (σ : gmap string string) q :
  q ≠ tmp →
  (∀ w, ddk_workspace self = Some w →
     let bazelrc := path_str (joinpath (Path_of w) (Path_of _DEVICE_BAZELRC)) in
     let module_bazel :=
       path_str (joinpath (Path_of w) (Path_of _MODULE_BAZEL_FILE)) in
     q ≠ bazelrc ∧ tmp ≠ bazelrc ∧ q ≠ module_bazel ∧ tmp ≠ module_bazel) →
  files (_generate_bazelrc tmp self σ) !! q = σ !! q
  ∧ files (_generate_module_bazel tmp self σ) !! q = σ !! q.
Proof.
  intros Hq Hw. split.
  - unfold _generate_bazelrc, _try_rel_workspace.
    destruct (ddk_workspace self) as [w|]; [|done].
    destruct (Hw w eq_refl) as (H1 & H2 & _).
    destruct (kleaf_repo self) as [k|]; [|done].
    destruct (relative_to (Path_of k) (Path_of w)); cbn [files];
      by apply _update_file_other.
  - unfold _generate_module_bazel, _try_rel_workspace.
    destruct (ddk_workspace self) as [w|]; [|done].
    destruct (Hw w eq_refl) as (_ & _ & H1 & H2).
    destruct (kleaf_repo self) as [k|]; [destruct (relative_to (Path_of k) _)|];
      (destruct (prebuilts_dir self) as [d|];
       [destruct (read_download_configs _); [destruct (relative_to (Path_of d) _)|]|]);
      try case_bool_decide; cbn [files]; try done;
      by apply _update_file_other.
Qed.

Lemma generated_files_frame_witness :
  let self :=
    setter_with_dirs (Some "/work/ddk") (Some "/work/ddk/kleaf")
      (Some "/work/ddk/prebuilts") in
  let σ : gmap string string := {["/work/ddk/BUILD.bazel" := "a" +:+ nl]} in
  files (_generate_bazelrc "/tmp/t1" self σ) !! "/work/ddk/BUILD.bazel"
    = σ !! "/work/ddk/BUILD.bazel"
  ∧ files (@_generate_module_bazel one_config "/tmp/t1" self σ)
      !! "/work/ddk/BUILD.bazel" = σ !! "/work/ddk/BUILD.bazel".
Proof.
  cbv zeta.
  refine (@generated_files_frame one_config "/tmp/t1" _ _
            "/work/ddk/BUILD.bazel" _ _).
  - discriminate.
  - intros w [= <-]. cbv zeta. repeat split; discriminate.
Defined.

(** ** [_update_file]: how many marker lines the output holds *)

Section marker_counts.
Variable update : string.
Hypothesis update_free : marker_free (lines_of (update +:+ nl)) = true.
Implicit Types (l : string) (ls : list string) (a s w : bool).

Lemma removelast_cons l ls :
  removelast (l :: ls) = if ls is [] then [] else l :: removelast ls.
Proof. by destruct ls. Qed.

(** The sections written while the loop runs: one for each begin-marker
    line that is followed by a line. *)
Lemma count_emitted ls :
  forallb one_line ls = true →
  ∀ a s w,
    let n := count_begin (removelast ls)
             + (if a then if ls is [] then 0 else 1 else 0) in
    count_begin (flat_map lines_of (emitted update a s w ls)) =
      n + (if w || (0 <? n) then 0 else 1)
    ∧ count_end (flat_map lines_of (emitted update a s w ls)) =
      count_end ls + (if w || (0 <? n) then 0 else 1).
Proof.
  destruct (marker_free_count _ update_free) as [Hbu Heu].
  induction ls as [|l ls IH]; intros Hls a s w.
  - cbn [removelast emitted]. change (count_begin []) with 0.
    change (count_end []) with 0. destruct a, w; cbn [orb Nat.ltb Nat.leb Nat.add];
      try done;
      change [_FILE_MARKER_BEGIN; update +:+ nl; _FILE_MARKER_END]
        with ([_FILE_MARKER_BEGIN; update +:+ nl] ++ [_FILE_MARKER_END]);
      rewrite flat_map_block, count_begin_cons, count_end_cons,
        count_begin_app, count_end_app, Hbu, Heu; done.
  - cbn [forallb] in Hls. apply andb_true_iff in Hls as [Hl Hls].
    specialize (IH Hls (is_begin l)
                  (if is_begin l then true else if is_end l then false else s)
                  (w || a)).
    cbv zeta in IH. destruct IH as [IHb IHe].
    cbv zeta. cbn [emitted].
    rewrite !flat_map_app, !count_begin_app, !count_end_app, IHb, IHe.
    rewrite removelast_cons, count_end_cons.
    assert (count_begin (flat_map lines_of
              (if a then [_FILE_MARKER_BEGIN; update +:+ nl] else [])) =
            (if a then 1 else 0)
            ∧ count_end (flat_map lines_of
              (if a then [_FILE_MARKER_BEGIN; update +:+ nl] else [])) = 0)
      as [-> ->].
    { destruct a; [|done].
      rewrite <-(app_nil_r [_; _]), flat_map_block.
      rewrite count_begin_cons, count_end_cons, count_begin_app, count_end_app.
      by rewrite Hbu, Heu. }
    assert (count_begin (flat_map lines_of
              (if (if is_begin l then true
                   else if is_end l then false else s) then [] else [l])) = 0
            ∧ count_end (flat_map lines_of
              (if (if is_begin l then true
                   else if is_end l then false else s) then [] else [l])) =
              (if is_end l then 1 else 0))
      as [-> ->].
    { destruct (is_begin l) eqn:Hb.
      - by rewrite (begin_not_end l Hl Hb).
      - destruct (is_end l) eqn:He.
        + cbn [flat_map]. rewrite (one_line_lines_of l Hl). cbn [app].
          by rewrite count_begin_cons, count_end_cons, Hb, He.
        + destruct s; [done|]. cbn [flat_map].
          rewrite (one_line_lines_of l Hl). cbn [app].
          by rewrite count_begin_cons, count_end_cons, Hb, He. }
    assert (count_begin (removelast ls)
            + (if is_begin l then if ls is [] then 0 else 1 else 0) =
            count_begin (if ls is [] then [] else l :: removelast ls)) as ->.
    { destruct ls; [by destruct (is_begin l)|].
      rewrite count_begin_cons. destruct (is_begin l); lia. }
    set (n' := count_begin (if ls is [] then [] else l :: removelast ls)).
    destruct a, w; cbn [orb]; rewrite ?Nat.add_0_r;
      repeat match goal with
        | |- context [?x <? ?y] => destruct (Nat.ltb_spec x y)
        end;
      split; lia.
Qed.
End marker_counts.

Lemma begin_free_count ls : begin_free ls = true → count_begin ls = 0.
Proof.
  induction ls as [|l ls IH]; [done|].
  cbn [begin_free forallb]. intros [Hl Hls]%andb_true_iff.
  apply negb_true_iff in Hl. rewrite count_begin_cons, Hl. by apply IH.
Qed.

Lemma begin_free_removelast ls :
  begin_free ls = true → begin_free (removelast ls) = true.
Proof.
  induction ls as [|l ls IH]; [done|].
  cbn [begin_free forallb]. intros [Hl Hls]%andb_true_iff.
  rewrite removelast_cons. destruct ls; [done|].
  cbn [begin_free forallb]. rewrite Hl. by apply IH.
Qed.

(** X18: with a replacement that holds no marker line, the file written by
    [_update_file] holds one begin-marker line for each begin-marker line of
    the input that is followed by a line, and one if there is none; it holds
    the end-marker lines of the input, and one more when the section was
    appended. *)
Theorem update_file_marker_counts tmp path update (σ : gmap string string) :
  tmp ≠ path →
  marker_free (lines_of (update +:+ nl)) = true →
  let ls := lines_of (file_text σ path) in
  let out := lines_of (file_text (_update_file tmp path update σ) path) in
  let n := count_begin (removelast ls) in
  count_begin out = Nat.max 1 n
  ∧ count_end out = count_end ls + (if n is 0 then 1 else 0).
Proof.
  intros Hne Hu ls out n. subst out. rewrite file_text_update by done.
  destruct (has_begin ls) eqn:Hin.
  - rewrite lines_of_updated_text by by right.
    destruct (count_emitted update Hu ls (lines_of_one_line _) false false false)
      as [Hb He].
    cbv zeta in Hb, He. rewrite Nat.add_0_r in Hb, He. fold ls n in Hb, He.
    fold ls. rewrite Hb, He. cbn [orb].
    destruct n; cbn [Nat.ltb Nat.leb]; split; lia.
  - rewrite has_begin_begin_free in Hin. apply negb_false_iff in Hin.
    assert (n = 0) as -> by by apply begin_free_count, begin_free_removelast.
    rewrite updated_text_append by done.
    destruct (lines_of_appended (file_text σ path) update)
      as (s0 & t & E & Hs0 & Ht & ->).
    subst ls. rewrite E in Hin |- *.
    rewrite (lines_of_app s0 t) in Hin |- * by done.
    unfold begin_free in Hin. rewrite forallb_app in Hin.
    apply andb_true_iff in Hin as [Hin _].
    destruct (marker_free_count _ Hu) as [Hbu Heu].
    rewrite count_begin_app, count_begin_cons, count_begin_app.
    rewrite !count_end_app, count_end_cons, count_end_app.
    rewrite (begin_free_count _ Hin), Hbu, Heu, is_begin_glued, is_end_glued
      by done.
    rewrite (lines_of_no_nl t) by done.
    change (count_begin [_FILE_MARKER_END]) with 0.
    change (count_end [_FILE_MARKER_END]) with 1.
    split; [done|]. destruct t as [|c t].
    + change (count_end []) with 0. lia.
    + rewrite count_end_cons. destruct (no_nl_not_marker _ Ht) as [_ ->].
      change (count_end []) with 0. lia.
Qed.

Lemma update_file_marker_counts_witness :
  let section := _FILE_MARKER_BEGIN +:+ "old" +:+ nl +:+ _FILE_MARKER_END in
  let σ : gmap string string := {["f" := section +:+ section]} in
  count_begin (lines_of (file_text (_update_file "t" "f" "new" σ) "f")) = 2
  ∧ count_end (lines_of (file_text (_update_file "t" "f" "new" σ) "f")) = 2.
Proof.
  cbv zeta.
  exact (update_file_marker_counts "t" "f" "new"
           {["f" := (_FILE_MARKER_BEGIN +:+ "old" +:+ nl +:+ _FILE_MARKER_END)
                    +:+ _FILE_MARKER_BEGIN +:+ "old" +:+ nl +:+ _FILE_MARKER_END]}
           ltac:(discriminate) eq_refl).
Defined.

(** * Calls that read what earlier calls wrote *)

(** ** Universal newlines *)

Section newline_facts.
Implicit Types (s t a b : string) (c : ascii) (cs ls : list string)
  (σ : gmap string string).

Local Abbreviation T := universal_newlines.

Lemma no_cr_cons c s : no_cr (String c s) = negb (is_cr c) && no_cr s.
Proof. reflexivity. Qed.

Lemma no_cr_app s t : no_cr (s +:+ t) = no_cr s && no_cr t.
Proof.
  induction s as [|c s IH]; [done|].
  rewrite str_app_cons, !no_cr_cons, IH. by rewrite andb_assoc.
Qed.

(** A text without carriage return is read as it is; what is read holds
    none. *)
Lemma universal_newlines_no_cr s : no_cr s = true → T s = s.
Proof.
  induction s as [|c s IH]; [done|].
  rewrite no_cr_cons. intros [Hc Hs]%andb_true_iff.
  apply negb_true_iff in Hc. cbn [universal_newlines].
  by rewrite Hc, (IH Hs).
Qed.

Lemma no_cr_universal_newlines s : no_cr (T s) = true.
Proof.
  induction s as [|c s IH]; [done|].
  cbn [universal_newlines]. destruct (is_cr c) eqn:Hc.
  - destruct (starts_with_nl s); [done|]. by rewrite no_cr_cons, IH.
  - by rewrite no_cr_cons, Hc, IH.
Qed.

Lemma universal_newlines_app_no_cr a b : no_cr a = true → T (a +:+ b) = a +:+ T b.
Proof.
  induction a as [|c a IH]; [done|].
  rewrite no_cr_cons. intros [Hc Ha]%andb_true_iff.
  apply negb_true_iff in Hc. rewrite !str_app_cons. cbn [universal_newlines].
  by rewrite Hc, (IH Ha).
Qed.

Lemma starts_with_nl_app a b : a ≠ "" → starts_with_nl (a +:+ b) = starts_with_nl a.
Proof. by destruct a. Qed.

(** Reading goes piece by piece when the pieces end with a line feed. *)
Lemma universal_newlines_app a b : complete a = true → T (a +:+ b) = T a +:+ T b.
Proof.
  induction a as [|c a IH]; [done|].
  rewrite complete_cons. intros Ha. rewrite str_app_cons.
  cbn [universal_newlines]. destruct a as [|c' a].
  - assert (is_cr c = false) as ->.
    { apply is_nl_true in Ha as ->. reflexivity. }
    by rewrite str_app_nil_l.
  - rewrite starts_with_nl_app by done. rewrite (IH Ha).
    destruct (is_cr c); [destruct (starts_with_nl _)|]; done.
Qed.

Lemma universal_newlines_nil s : T s = "" → s = "".
Proof.
  destruct s as [|c s]; [done|]. cbn [universal_newlines].
  destruct (is_cr c); [|done]. destruct s as [|c' s]; [done|].
  cbn [starts_with_nl]. destruct (is_nl c') eqn:Hc'; [|done].
  cbn [universal_newlines].
  assert (is_cr c' = false) as ->.
  { apply is_nl_true in Hc' as ->. reflexivity. }
  done.
Qed.

Lemma complete_universal_newlines a : complete a = true → complete (T a) = true.
Proof.
  induction a as [|c a IH]; [done|].
  rewrite complete_cons. intros Ha. cbn [universal_newlines].
  destruct a as [|c' a].
  - assert (is_cr c = false) as ->.
    { apply is_nl_true in Ha as ->. reflexivity. }
    cbn. done.
  - specialize (IH Ha).
    destruct (is_cr c); [destruct (starts_with_nl _); [done|]|];
      rewrite complete_cons;
      (destruct (T (String c' a)) eqn:E; [by apply universal_newlines_nil in E|done]).
Qed.

Lemma lines_of_no_cr s : no_cr s = true → forallb no_cr (lines_of s) = true.
Proof.
  induction s as [|c s IH]; [done|].
  rewrite no_cr_cons. intros [Hc Hs]%andb_true_iff. specialize (IH Hs).
  cbn [lines_of]. destruct (is_nl c).
  - cbn [forallb]. by rewrite no_cr_cons, Hc, IH.
  - destruct (lines_of s) as [|l ls]; cbn [forallb] in *.
    + by rewrite no_cr_cons, Hc.
    + apply andb_true_iff in IH as [Hl Hls]. by rewrite no_cr_cons, Hc, Hl, Hls.
Qed.

(** The lines read back from pieces written one after the other. *)
Lemma lines_of_read_back cs :
  joinable cs = true →
  lines_of (T (text_of cs)) = flat_map (λ x, lines_of (T x)) cs.
Proof.
  induction cs as [|x cs IH]; [done|].
  intros [->|[Hx Hcs]]%joinable_cons.
  - cbn [text_of foldr flat_map]. by rewrite str_app_nil_r, app_nil_r.
  - rewrite text_of_cons, universal_newlines_app by done.
    rewrite lines_of_app by by apply complete_universal_newlines.
    cbn [flat_map]. by rewrite IH.
Qed.

Lemma file_text_as_read path σ :
  file_text (as_read path σ) path = T (file_text σ path).
Proof.
  unfold file_text, as_read. rewrite lookup_alter_eq.
  by destruct (σ !! path).
Qed.
End newline_facts.

(** A call that reads the target through [as_read] leaves the files as
    they are on disk, but for the target and the temporary name. *)
Lemma _update_file_as_read tmp path update (σ : gmap string string) :
  tmp ≠ path →
  _update_file tmp path update (as_read path σ) =
  <[path := updated_text (universal_newlines (file_text σ path)) update]>
    (delete tmp σ).
Proof.
  intros Hne. rewrite _update_file_eq, file_text_as_read by done.
  apply map_eq. intros q. destruct (decide (q = path)) as [->|Hq].
  - by rewrite !lookup_insert_eq.
  - rewrite !lookup_insert_ne by done.
    destruct (decide (q = tmp)) as [->|Hq'].
    + by rewrite !lookup_delete_eq.
    + rewrite !lookup_delete_ne by done. unfold as_read.
      by rewrite lookup_alter_ne.
Qed.

(** ** Running the loop on what is read back *)

Section reread.
Variable f : string → list string.
Variables u1 u2 : string.
Hypothesis f_begin : f _FILE_MARKER_BEGIN = [_FILE_MARKER_BEGIN].
Hypothesis f_end : f _FILE_MARKER_END = [_FILE_MARKER_END].
Hypothesis f_free : marker_free (f (u1 +:+ nl)) = true.
Hypothesis f_nonempty : f (u1 +:+ nl) ≠ [].
Implicit Types (l : string) (ls rest : list string) (a s w : bool).

(** A section written with [u1] and read back is found by a run with
    [u2], which writes [u2] in its place. *)
Lemma emitted_block_reread rest s w :
  emitted u2 false s w (_FILE_MARKER_BEGIN :: f (u1 +:+ nl) ++ rest) =
  [_FILE_MARKER_BEGIN; u2 +:+ nl] ++ emitted u2 false true true rest.
Proof.
  cbn [emitted]. rewrite is_begin_BEGIN. cbn [app].
  rewrite emitted_skip_free by done. by rewrite orb_true_r.
Qed.

Lemma flat_map_block_reread rest :
  flat_map f ([_FILE_MARKER_BEGIN; u1 +:+ nl] ++ rest) =
  _FILE_MARKER_BEGIN :: f (u1 +:+ nl) ++ flat_map f rest.
Proof. cbn [app flat_map]. by rewrite f_begin. Qed.

Lemma emitted_reread ls :
  Forall (λ l, f l = [l]) ls →
  ∀ a s w s2, (s2 = true → s = true) → (a = true → s = true) →
  emitted u2 false s2 w (flat_map f (emitted u1 a s w ls)) =
  emitted u2 a s w ls.
Proof.
  induction 1 as [|l ls Hl _ IH]; intros a s w s2 Hs2 Ha.
  - cbn [emitted]. destruct w; [done|].
    change [_FILE_MARKER_BEGIN; u1 +:+ nl; _FILE_MARKER_END]
      with ([_FILE_MARKER_BEGIN; u1 +:+ nl] ++ [_FILE_MARKER_END]).
    rewrite flat_map_block_reread, emitted_block_reread.
    cbn [flat_map]. rewrite f_end. reflexivity.
  - cbn [emitted].
    assert (∀ rest, flat_map f ([l] ++ rest) = l :: flat_map f rest) as Hcopy.
    { intros rest. cbn [app flat_map]. by rewrite Hl. }
    destruct a.
    + rewrite (Ha eq_refl), orb_true_r, flat_map_block_reread,
        emitted_block_reread.
      f_equal. destruct (is_begin l) eqn:Hb.
      * cbn [app]. by apply IH.
      * destruct (is_end l) eqn:He.
        -- rewrite Hcopy. cbn [emitted]. rewrite Hb, He. cbn [app orb].
           f_equal. by apply IH.
        -- cbn [app]. by apply IH.
    + rewrite orb_false_r. cbn [app]. destruct (is_begin l) eqn:Hb.
      * cbn [app]. by apply IH.
      * destruct (is_end l) eqn:He.
        -- change (l :: ?x) with ([l] ++ x). rewrite Hcopy. cbn [emitted].
           rewrite Hb, He. cbn [app orb]. rewrite orb_false_r.
           f_equal. by apply IH.
        -- destruct s.
           ++ cbn [app]. by apply IH.
           ++ destruct s2; [by specialize (Hs2 eq_refl)|].
              change (l :: ?x) with ([l] ++ x). rewrite Hcopy. cbn [emitted].
              rewrite Hb, He. cbn [app orb]. rewrite orb_false_r.
              f_equal. by apply IH.
Qed.
End reread.

(** ** [_update_file] on a file that an earlier call wrote *)

Section reread_text.
Variables u1 u2 : string.
Hypothesis u1_read_free :
  marker_free (lines_of (universal_newlines (u1 +:+ nl))) = true.
Implicit Types (input : string) (ls : list string).

Local Abbreviation T := universal_newlines.
Local Abbreviation read_lines := (λ x : string, lines_of (universal_newlines x)).

Lemma read_lines_update_nonempty : read_lines (u1 +:+ nl) ≠ [].
Proof.
  intros E%lines_of_nil%universal_newlines_nil. by destruct u1.
Qed.

Lemma read_lines_plain ls :
  forallb one_line ls = true → forallb no_cr ls = true →
  Forall (λ l, read_lines l = [l]) ls.
Proof.
  induction ls as [|l ls IH]; [constructor|].
  cbn [forallb]. intros [Hl Hls]%andb_true_iff [Hc Hcs]%andb_true_iff.
  constructor; [|auto].
  by rewrite (universal_newlines_no_cr l Hc), (one_line_lines_of l Hl).
Qed.

(** The lines a later call reads from what a call with [u1] wrote. *)
Lemma lines_of_reread input :
  no_cr input = true →
  complete input = true ∨ has_begin (lines_of input) = true →
  lines_of (T (updated_text input u1)) =
  flat_map read_lines (emitted u1 false false false (lines_of input)).
Proof.
  intros Hcr Hin. rewrite updated_text_emitted. apply lines_of_read_back.
  apply emitted_joinable; [apply lines_of_joinable|].
  destruct Hin as [Hin|Hin]; [left; by apply complete_lines_of|by right].
Qed.

(** A call with [u2] on the file a call with [u1] wrote gives what a call
    with [u2] alone gives. *)
Lemma reread_last_wins input :
  no_cr input = true →
  complete input = true ∨ has_begin (lines_of input) = true →
  updated_text (T (updated_text input u1)) u2 = updated_text input u2.
Proof.
  intros Hcr Hin. rewrite (updated_text_emitted (T _)).
  rewrite lines_of_reread by done.
  rewrite (emitted_reread read_lines u1 u2).
  - by rewrite <-updated_text_emitted.
  - reflexivity.
  - reflexivity.
  - exact u1_read_free.
  - exact read_lines_update_nonempty.
  - apply read_lines_plain; [apply lines_of_one_line|by apply lines_of_no_cr].
  - done.
  - done.
Qed.
End reread_text.

Lemma lines_of_glued input rest :
  ∃ s0 t, input = s0 +:+ t ∧ complete s0 = true ∧ no_nl t = true ∧
  lines_of (input +:+ _FILE_MARKER_BEGIN +:+ rest) =
  lines_of s0 ++ (t +:+ _FILE_MARKER_BEGIN) :: lines_of rest.
Proof.
  destruct (split_last_line input) as (s0 & t & -> & Hs0 & Ht).
  exists s0, t. do 3 (split; [done|]).
  rewrite str_app_assoc, lines_of_app by done. f_equal.
  unfold _FILE_MARKER_BEGIN at 1.
  rewrite (str_app_assoc _ nl), <-(str_app_assoc t).
  rewrite lines_of_first by (by rewrite no_nl_app, Ht).
  by rewrite str_app_assoc.
Qed.

(** What is read from a file that a call wrote holds a begin-marker line. *)
Lemma reread_has_begin input update :
  no_cr input = true →
  has_begin (lines_of (universal_newlines (updated_text input update))) = true.
Proof.
  intros Hcr. destruct (has_begin (lines_of input)) eqn:Hin.
  - rewrite updated_text_emitted, lines_of_read_back.
    + destruct (emitted_has_block update (lines_of input) false false)
        as (pre & post & ->).
      unfold has_begin. rewrite flat_map_app, existsb_app. cbn [flat_map].
      change (lines_of (universal_newlines _FILE_MARKER_BEGIN))
        with [_FILE_MARKER_BEGIN].
      cbn [app existsb]. by rewrite is_begin_BEGIN, orb_true_r.
    + apply emitted_joinable; [apply lines_of_joinable|by right].
  - rewrite has_begin_begin_free in Hin. apply negb_false_iff in Hin.
    rewrite updated_text_append by done.
    rewrite universal_newlines_app_no_cr by done.
    rewrite (universal_newlines_app_no_cr _FILE_MARKER_BEGIN) by reflexivity.
    destruct (lines_of_glued input (universal_newlines (update +:+ nl +:+ _FILE_MARKER_END)))
      as (s0 & t & _ & _ & _ & ->).
    unfold has_begin. rewrite existsb_app. cbn [existsb].
    by rewrite is_begin_glued, orb_true_r.
Qed.

(** C1 (amended): a file is read with carriage returns and carriage return
    plus line feed turned into line feeds.  When no line of the replacement
    followed by a line feed, read that way, holds a marker, and the file as
    read is empty, ends with a line feed or already holds a begin-marker
    line, a second call of [_update_file] with the same replacement leaves
    the file as the first call wrote it. *)
Theorem update_file_idempotent tmp tmp' path update (σ : gmap string string) :
  tmp ≠ path → tmp' ≠ path →
  marker_free (lines_of (universal_newlines (update +:+ nl))) = true →
  complete (file_text (as_read path σ) path) = true
    ∨ has_begin (lines_of (file_text (as_read path σ) path)) = true →
  _update_file tmp' path update
    (as_read path (_update_file tmp path update (as_read path σ))) !! path =
  _update_file tmp path update (as_read path σ) !! path.
Proof.
  intros Hne Hne' Hu Hin. rewrite !_update_file_lookup by done.
  rewrite file_text_as_read, file_text_update by done. f_equal.
  apply reread_last_wins; [done| |done].
  rewrite file_text_as_read. apply no_cr_universal_newlines.
Qed.

Lemma update_file_idempotent_witness :
  let σ : gmap string string :=
    {["device.bazelrc" := "build --jobs=4" +:+ String cr_char nl]} in
  "/tmp/tmp1" ≠ "device.bazelrc" ∧ "/tmp/tmp2" ≠ "device.bazelrc" ∧
  marker_free (lines_of (universal_newlines
    ("common --config=internet" +:+ nl))) = true ∧
  (complete (file_text (as_read "device.bazelrc" σ) "device.bazelrc") = true
    ∨ has_begin (lines_of
        (file_text (as_read "device.bazelrc" σ) "device.bazelrc")) = true) ∧
  _update_file "/tmp/tmp2" "device.bazelrc" "common --config=internet"
    (as_read "device.bazelrc"
      (_update_file "/tmp/tmp1" "device.bazelrc" "common --config=internet"
        (as_read "device.bazelrc" σ)))
    !! "device.bazelrc" =
  _update_file "/tmp/tmp1" "device.bazelrc" "common --config=internet"
    (as_read "device.bazelrc" σ) !! "device.bazelrc".
Proof.
  cbv zeta.
  assert ("/tmp/tmp1" ≠ "device.bazelrc") as H1 by discriminate.
  assert ("/tmp/tmp2" ≠ "device.bazelrc") as H2 by discriminate.
  assert (marker_free (lines_of (universal_newlines
            ("common --config=internet" +:+ nl))) = true)
    as H3 by reflexivity.
  assert (complete (file_text (as_read "device.bazelrc"
                      ({["device.bazelrc" :=
                           "build --jobs=4" +:+ String cr_char nl]}
                       : gmap string string)) "device.bazelrc") = true
          ∨ has_begin (lines_of (file_text (as_read "device.bazelrc"
                      ({["device.bazelrc" :=
                           "build --jobs=4" +:+ String cr_char nl]}
                       : gmap string string)) "device.bazelrc")) = true) as H4
    by (left; vm_compute; reflexivity).
  split; [exact H1|]. split; [exact H2|]. split; [exact H3|].
  split; [exact H4|].
  exact (update_file_idempotent _ _ _ _ _ H1 H2 H3 H4).
Defined.

(** A replacement that ends with a carriage return is read back as an
    end-marker line when its text is the end marker's: the replacement
    written holds no marker line, yet the second call writes another
    file. *)
Example carriage_return_breaks_rerun :
  let update := "### GENERATED SECTION - DO NOT MODIFY - END ###"
                  +:+ String cr_char "" in
  let σ : gmap string string := ∅ in
  let once := _update_file "t1" "f" update (as_read "f" σ) in
  let twice := _update_file "t2" "f" update (as_read "f" once) in
  marker_free (lines_of (update +:+ nl)) = true
  ∧ marker_free (lines_of (universal_newlines (update +:+ nl))) = false
  ∧ length (lines_of (file_text once "f")) = 3
  ∧ length (lines_of (file_text twice "f")) = 4.
Proof. vm_compute. done. Qed.

(** X3: with a replacement of which no line, as read back, holds a marker,
    the file is stable from the second call on, whatever it held before the
    first: a third call leaves it as the second one wrote it. *)
Theorem update_file_stable_after_two t1 t2 t3 path update σ :
  t1 ≠ path → t2 ≠ path → t3 ≠ path →
  marker_free (lines_of (universal_newlines (update +:+ nl))) = true →
  let once := _update_file t1 path update (as_read path σ) in
  let twice := _update_file t2 path update (as_read path once) in
  _update_file t3 path update (as_read path twice) !! path = twice !! path.
Proof.
  intros H1 H2 H3 Hu. cbv zeta. rewrite !_update_file_lookup by done.
  rewrite (file_text_as_read path (_update_file t2 _ _ _)).
  rewrite (file_text_update t2) by done. f_equal.
  apply reread_last_wins; [done| |].
  - rewrite file_text_as_read. apply no_cr_universal_newlines.
  - right. rewrite file_text_as_read, file_text_update by done.
    apply reread_has_begin.
    rewrite file_text_as_read. apply no_cr_universal_newlines.
Qed.

Lemma update_file_stable_after_two_witness :
  let σ : gmap string string :=
    {["f" := "module(name = 'ddk')" +:+ String cr_char "bazel_dep()"]} in
  let once := _update_file "t1" "f" "new" (as_read "f" σ) in
  let twice := _update_file "t2" "f" "new" (as_read "f" once) in
  _update_file "t3" "f" "new" (as_read "f" twice) !! "f" = twice !! "f".
Proof.
  refine (update_file_stable_after_two "t1" "t2" "t3" "f" "new" _ _ _ _ _);
    [discriminate..|reflexivity].
Defined.

(** X5: the last replacement wins.  When no line of the first replacement,
    as read back, holds a marker, and the file as read is empty, ends with a
    line feed or holds a begin-marker line, a call with [u1] followed by a
    call with [u2] leaves the file as a single call with [u2] does: nothing
    of [u1] is left. *)
Theorem update_file_last_wins t1 t2 path u1 u2 (σ : gmap string string) :
  t1 ≠ path → t2 ≠ path →
  marker_free (lines_of (universal_newlines (u1 +:+ nl))) = true →
  complete (file_text (as_read path σ) path) = true
    ∨ has_begin (lines_of (file_text (as_read path σ) path)) = true →
  _update_file t2 path u2
    (as_read path (_update_file t1 path u1 (as_read path σ))) !! path =
  _update_file t2 path u2 (as_read path σ) !! path.
Proof.
  intros H1 H2 Hu Hin. rewrite !_update_file_lookup by done.
  rewrite file_text_as_read, file_text_update by done. f_equal.
  apply reread_last_wins; [done| |done].
  rewrite file_text_as_read. apply no_cr_universal_newlines.
Qed.

Lemma update_file_last_wins_witness :
  let σ : gmap string string :=
    {["f" := "a" +:+ nl +:+ _FILE_MARKER_BEGIN +:+ "old" +:+ nl
             +:+ _FILE_MARKER_END +:+ "b"]} in
  _update_file "t2" "f" "second"
    (as_read "f" (_update_file "t1" "f" "first" (as_read "f" σ))) !! "f" =
  _update_file "t2" "f" "second" (as_read "f" σ) !! "f".
Proof.
  cbv zeta.
  refine (update_file_last_wins "t1" "t2" "f" "first" "second" _ _ _ _ _).
  - discriminate.
  - discriminate.
  - reflexivity.
  - right. reflexivity.
Defined.

(** * Lines outside the sections, marker lines, and calls that raise *)

(** ** [_update_file]: the lines outside the sections *)

Section outside_facts.
Implicit Types (l : string) (ls : list string).

(** When every begin-marker line is closed, the lines outside the
    marker-delimited sections are the lines the loop copies. *)
Lemma outside_sections_copied ls :
  forallb one_line ls = true → all_closed ls = true →
  ∀ inside, outside_sections inside ls = copied inside ls.
Proof.
  induction ls as [|l ls IH]; [done|].
  cbn [forallb all_closed].
  intros [Hl Hls]%andb_true_iff [Hc Hcs]%andb_true_iff inside.
  specialize (IH Hls Hcs). cbn [outside_sections copied].
  destruct (is_begin l) eqn:Hb.
  - rewrite (begin_not_end l Hl Hb). cbn [negb orb] in Hc. rewrite Hc.
    destruct inside; cbn [andb]; apply IH.
  - cbn [andb]. destruct inside.
    + destruct (is_end l); cbn [negb]; apply IH.
    + by rewrite IH.
Qed.
End outside_facts.

(** C3, as stated, fails in two ways.  When the input holds no section and
    its last line has no line feed, the begin marker is written on that
    line, and the line is not a line of the output any more.  When a
    begin-marker line is followed by no end-marker line, the lines after
    it, which lie in no marker-delimited section, are dropped. *)
Lemma outside_lines_not_preserved :
  (let σ : gmap string string := {["f" := "a" +:+ nl +:+ "b"]} in
   let out := file_text (_update_file "t" "f" "new" σ) "f" in
   outside_sections false (lines_of (file_text σ "f")) = ["a" +:+ nl; "b"]
   ∧ lines_of out =
       ["a" +:+ nl; "b" +:+ _FILE_MARKER_BEGIN; "new" +:+ nl; _FILE_MARKER_END]
   ∧ ¬ (outside_sections false (lines_of (file_text σ "f"))
          `sublist_of` lines_of out))
  ∧ (let σ : gmap string string :=
       {["f" := "a" +:+ nl +:+ _FILE_MARKER_BEGIN
                +:+ "keep1" +:+ nl +:+ "keep2" +:+ nl]} in
     let out := file_text (_update_file "t" "f" "new" σ) "f" in
     outside_sections false (lines_of (file_text σ "f")) =
       ["a" +:+ nl; _FILE_MARKER_BEGIN; "keep1" +:+ nl; "keep2" +:+ nl]
     ∧ scan "new" (lines_of (file_text σ "f")) =
         ["a" +:+ nl; _FILE_MARKER_BEGIN; "new" +:+ nl]
     ∧ lines_of out = ["a" +:+ nl; _FILE_MARKER_BEGIN; "new" +:+ nl]
     ∧ ¬ (outside_sections false (lines_of (file_text σ "f"))
            `sublist_of` lines_of out)).
Proof.
  cbv zeta. rewrite !file_text_update by done. split.
  - assert (outside_sections false (lines_of (file_text
              ({["f" := "a" +:+ nl +:+ "b"]} : gmap string string) "f")) =
            ["a" +:+ nl; "b"]) as -> by reflexivity.
    split; [reflexivity|]. split; [reflexivity|].
    intros H. apply (elem_of_sublist _ _ "b") in H.
    2:{ rewrite !elem_of_cons. auto. }
    change (lines_of _) with
      ["a" +:+ nl; "b" +:+ _FILE_MARKER_BEGIN; "new" +:+ nl; _FILE_MARKER_END]
      in H.
    rewrite !elem_of_cons, elem_of_nil in H.
    destruct H as [H|[H|[H|[H|[]]]]]; vm_compute in H; discriminate.
  - assert (outside_sections false (lines_of (file_text
              ({["f" := "a" +:+ nl +:+ _FILE_MARKER_BEGIN
                        +:+ "keep1" +:+ nl +:+ "keep2" +:+ nl]}
               : gmap string string) "f")) =
            ["a" +:+ nl; _FILE_MARKER_BEGIN; "keep1" +:+ nl; "keep2" +:+ nl])
      as -> by reflexivity.
    split; [reflexivity|]. split; [reflexivity|]. split; [reflexivity|].
    intros H. apply (elem_of_sublist _ _ ("keep1" +:+ nl)) in H.
    2:{ rewrite !elem_of_cons. auto. }
    change (lines_of _) with ["a" +:+ nl; _FILE_MARKER_BEGIN; "new" +:+ nl]
      in H.
    rewrite !elem_of_cons, elem_of_nil in H.
    destruct H as [H|[H|[H|[]]]]; vm_compute in H; discriminate.
Qed.

(** C3 (amended): when every begin-marker line of the input is followed,
    later, by an end-marker line, the lines of the input outside the
    marker-delimited sections are passed unchanged, and in their order, to
    [output_file.write]; they are lines of the file written by
    [_update_file], unchanged and in their order, whenever the input is
    empty, ends with a line feed, or holds a begin-marker line. *)
Theorem update_file_preserves_outside tmp path update
    (σ : gmap string string) :
  tmp ≠ path →
  all_closed (lines_of (file_text σ path)) = true →
  outside_sections false (lines_of (file_text σ path))
    `sublist_of` scan update (lines_of (file_text σ path))
  ∧ (complete (file_text σ path) = true
       ∨ has_begin (lines_of (file_text σ path)) = true →
     outside_sections false (lines_of (file_text σ path))
       `sublist_of` lines_of (file_text (_update_file tmp path update σ) path)).
Proof.
  intros Hne Hclosed.
  rewrite outside_sections_copied by (apply lines_of_one_line || done).
  split; [apply copied_sublist_scan|]. intros Hin.
  rewrite file_text_update, lines_of_updated_text by done.
  apply sublist_flat_map_lines; [apply copied_sublist_emitted|].
  apply copied_one_line, lines_of_one_line.
Qed.

Lemma update_file_preserves_outside_witness :
  let σ : gmap string string :=
    {["f" := "a" +:+ nl +:+ _FILE_MARKER_BEGIN +:+ "old" +:+ nl
             +:+ _FILE_MARKER_END +:+ _FILE_MARKER_END +:+ "b"]} in
  outside_sections false (lines_of (file_text σ "f"))
    = ["a" +:+ nl; _FILE_MARKER_END; "b"]
  ∧ outside_sections false (lines_of (file_text σ "f"))
      `sublist_of` lines_of (file_text (_update_file "t" "f" "new" σ) "f").
Proof.
  cbv zeta. split; [reflexivity|].
  refine (proj2 (update_file_preserves_outside "t" "f" "new" _ _ _) _).
  - discriminate.
  - reflexivity.
  - right. reflexivity.
Defined.

(** ** [_update_file]: what makes a marker line *)



(** ** [_download] without a build id *)

(** C8, as stated, fails: with a format that indexes the build id, the
    url is formed when a build id is given, and cannot be formed when none
    is; then [str.format] raises [TypeError] in [_get_url], before the test
    on the build id, and the exception leaves [_download]: nothing is
    logged and the call does not return. *)
Lemma download_raises_without_build_id :
  let fmt := "https://ci/{build_id[0]}/{filename}" in
  let with_id := {|
    build_id := Some "6148204"; build_target := Some "kernel_aarch64";
    ddk_workspace := None; local := false; kleaf_repo := None;
    prebuilts_dir := None; url_fmt := Some fmt |} in
  @_get_url indexed_runtime with_id "boot.img"
    = Return (Some "https://ci/6/boot.img")
  ∧ build_id (setter_without_id (Some fmt)) = None
  ∧ @_get_url indexed_runtime (setter_without_id (Some fmt)) "boot.img"
    = Raise TypeError
  ∧ @_download indexed_runtime (setter_without_id (Some fmt))
      "boot.img" "out/boot.img"
    = Effects [] [] (Raise TypeError).
Proof. cbv zeta. repeat split; reflexivity. Qed.

Section download_skip_facts.
Context `{Runtime}.
Implicit Types (self : KleafProjectSetter) (remote out : string).

(** C8 (amended): when [url_fmt] is unset ([None] or empty), or when
    [_get_url] returns [None] because no build id was given, [_download]
    logs one error, runs no command and returns without raising.  When
    [url_fmt] is set and [str.format] raises in [_get_url], as it can for a
    format that cannot take a build id that is [None], the exception leaves
    [_download]: nothing is logged and no command is run. *)
Theorem download_skipped self remote out :
  (truthy (url_fmt self) = false ∨ _get_url self remote = Return None →
   (∃ message, errors_logged (_download self remote out) = [message])
   ∧ commands_run (_download self remote out) = []
   ∧ ending (_download self remote out) = Return ())
  ∧ (∀ e, truthy (url_fmt self) = true → _get_url self remote = Raise e →
     _download self remote out = Effects [] [] (Raise e)).
Proof.
  split.
  - intros Hcase. unfold _download.
    destruct (truthy (url_fmt self)) eqn:Hfmt; cbn [negb].
    + destruct Hcase as [?|Hnone]; [done|]. rewrite Hnone. cbn [truthy negb].
      split; [by eexists|done].
    + split; [by eexists|done].
  - intros e Hfmt Hraise. unfold _download. by rewrite Hfmt, Hraise.
Qed.
End download_skip_facts.

Lemma download_skipped_witness :
  let with_id_field :=
    setter_without_id (Some "https://ci/{build_id}/{build_target}/{filename}") in
  let with_indexed_id :=
    setter_without_id (Some "https://ci/{build_id[0]}/{filename}") in
  commands_run (@_download plain_runtime (setter_without_id None)
                  "boot.img" "out/boot.img") = []
  ∧ ending (@_download plain_runtime (setter_without_id None)
              "boot.img" "out/boot.img") = Return ()
  ∧ commands_run (@_download plain_runtime with_id_field
                    "boot.img" "out/boot.img") = []
  ∧ ending (@_download plain_runtime with_id_field
              "boot.img" "out/boot.img") = Return ()
  ∧ @_download indexed_runtime with_indexed_id "boot.img" "out/boot.img"
    = Effects [] [] (Raise TypeError).
Proof.
  cbv zeta.
  pose proof (proj1 (@download_skipped plain_runtime (setter_without_id None)
                "boot.img" "out/boot.img") (or_introl eq_refl))
    as (_ & H1 & H2).
  pose proof (proj1 (@download_skipped plain_runtime
                (setter_without_id
                   (Some "https://ci/{build_id}/{build_target}/{filename}"))
                "boot.img" "out/boot.img") (or_intror eq_refl))
    as (_ & H3 & H4).
  pose proof (proj2 (@download_skipped indexed_runtime
                (setter_without_id (Some "https://ci/{build_id[0]}/{filename}"))
                "boot.img" "out/boot.img") TypeError eq_refl eq_refl) as H5.
  exact (conj H1 (conj H2 (conj H3 (conj H4 H5)))).
Defined.

(** ** [_try_rel_workspace]: the two cases *)

(** X12: [_try_rel_workspace] on a path and a workspace.  When the path is
    the workspace or lies under it, the names after the workspace's are
    returned as a relative path and nothing is logged; joined to the
    workspace, they give the path again.  Otherwise the path itself is
    returned and one warning is logged; joined to the workspace, an absolute
    path gives itself. *)
Theorem try_rel_workspace_round_trip self w p :
  ddk_workspace self = Some w →
  let ws := Path_of w in
  (∀ rest,
     path_root p = path_root ws → path_names p = path_names ws ++ rest →
     _try_rel_workspace self p = ([], Return (Path "" rest))
     ∧ joinpath ws (Path "" rest) = p)
  ∧ (¬ (path_root p = path_root ws ∧ path_names ws `prefix_of` path_names p) →
     _try_rel_workspace self p =
       ([(WARNING, "Path " +:+ path_str p
                   +:+ " is not relative to DDK workspace " +:+ path_str ws
                   +:+ ", using absolute path.")],
        Return p)
     ∧ (is_absolute p = true → joinpath ws p = p)).
Proof.
  intros Hw ws. unfold _try_rel_workspace. rewrite Hw. fold ws.
  unfold relative_to. split.
  - intros rest Hroot Hnames.
    rewrite !bool_decide_eq_true_2 by (done || by exists rest).
    cbn [andb]. rewrite Hnames, drop_app_length. split; [done|].
    rewrite joinpath_relative, <-Hroot, <-Hnames. by destruct p.
  - intros Hnot.
    destruct (bool_decide (path_root p = path_root ws)
              && bool_decide (path_names ws `prefix_of` path_names p)) eqn:E.
    + apply andb_true_iff in E as [?%bool_decide_eq_true ?%bool_decide_eq_true].
      by destruct Hnot.
    + split; [done|]. apply joinpath_absolute.
Qed.

Lemma try_rel_workspace_round_trip_witness :
  let self := setter_with_dirs (Some "/work/ddk") None None in
  _try_rel_workspace self (Path_of "/work/ddk/kleaf")
    = ([], Return (Path "" ["kleaf"]))
  ∧ joinpath (Path_of "/work/ddk") (Path "" ["kleaf"])
    = Path_of "/work/ddk/kleaf"
  ∧ _try_rel_workspace self (Path_of "/opt/kleaf")
    = ([(WARNING, "Path /opt/kleaf is not relative to DDK workspace /work/ddk, using absolute path.")],
       Return (Path_of "/opt/kleaf")).
Proof.
  cbv zeta.
  destruct (proj1 (try_rel_workspace_round_trip
              (setter_with_dirs (Some "/work/ddk") None None)
              "/work/ddk" (Path_of "/work/ddk/kleaf") eq_refl)
              ["kleaf"] eq_refl eq_refl) as [H1 H2].
  split; [exact H1|]. split; [exact H2|].
  refine (proj1 (proj2 (try_rel_workspace_round_trip
              (setter_with_dirs (Some "/work/ddk") None None)
              "/work/ddk" (Path_of "/opt/kleaf") eq_refl) _)).
  intros [_ [rest Hrest]]. vm_compute in Hrest. discriminate.
Defined.

(** ** The generated files, written again *)

Section path_no_cr_facts.
Implicit Types (s t : string) (c : ascii) (p q r : PurePath).

Lemma parse_root_no_cr s : no_cr (parse_root s) = true.
Proof.
  destruct s as [|c1 [|c2 [|c3 s]]]; cbn [parse_root];
    repeat case_bool_decide; reflexivity.
Qed.

Lemma split_on_no_cr c s :
  no_cr s = true → Forall (λ x, no_cr x = true) (split_on c s).
Proof.
  induction s as [|c' s IH]; [by repeat constructor|].
  rewrite no_cr_cons. cbn [split_on]. intros [Hc Hs]%andb_true_iff.
  specialize (IH Hs). case_bool_decide.
  - by constructor.
  - destruct (split_on c s) as [|x xs].
    + repeat constructor. by rewrite no_cr_cons, Hc.
    + inversion IH; subst. constructor; [|done].
      rewrite no_cr_cons. by apply andb_true_iff.
Qed.

Lemma Path_of_no_cr s : no_cr s = true → path_no_cr (Path_of s).
Proof.
  intros Hs. split; [apply parse_root_no_cr|]. cbn [Path_of path_names].
  apply Forall_forall. intros x [_ Hx]%list_elem_of_filter.
  revert x Hx. apply Forall_forall. by apply split_on_no_cr.
Qed.

Lemma concat_no_cr sep names :
  no_cr sep = true → Forall (λ x, no_cr x = true) names →
  no_cr (String.concat sep names) = true.
Proof.
  intros Hsep. induction 1 as [|x names Hx _ IH]; [done|].
  cbn [String.concat]. destruct names as [|y names]; [done|].
  change (no_cr (x +:+ sep +:+ String.concat sep (y :: names)) = true).
  by rewrite !no_cr_app, Hx, Hsep, IH.
Qed.

Lemma path_str_no_cr p : path_no_cr p → no_cr (path_str p) = true.
Proof.
  intros [Hroot Hnames]. unfold path_str. destruct (is_absolute p).
  - rewrite no_cr_app, Hroot. by apply concat_no_cr.
  - destruct (path_names p) eqn:E; [done|]. rewrite <-E in *.
    by apply concat_no_cr.
Qed.

Lemma joinpath_no_cr p q : path_no_cr p → path_no_cr q → path_no_cr (joinpath p q).
Proof.
  intros [Hp1 Hp2] [Hq1 Hq2]. unfold joinpath. destruct (is_absolute q).
  - done.
  - split; [done|]. cbn. by apply Forall_app.
Qed.

Lemma relative_to_no_cr p q r :
  relative_to p q = Return r → path_no_cr p → path_no_cr r.
Proof.
  intros (_ & Hnames & Hroot)%relative_to_Return [_ Hp]. split.
  - by rewrite Hroot.
  - rewrite Hnames in Hp. by apply Forall_app in Hp as [_ ?].
Qed.

(** What [_try_rel_workspace] returns holds neither line feed nor carriage
    return when the path does not. *)
Lemma try_rel_workspace_plain self w t :
  ddk_workspace self = Some w → no_nl t = true → no_cr t = true →
  ∃ logs rel, _try_rel_workspace self (Path_of t) = (logs, Return rel)
              ∧ no_nl (path_str rel) = true ∧ no_cr (path_str rel) = true.
Proof.
  intros Hw Ht Hc. unfold _try_rel_workspace. rewrite Hw.
  destruct (relative_to (Path_of t) (Path_of w)) as [rel|e] eqn:Hrel.
  - eexists _, rel. split; [done|]. split.
    + apply path_str_no_nl.
      eapply relative_to_no_nl; [exact Hrel|]. by apply Path_of_no_nl.
    + apply path_str_no_cr.
      eapply relative_to_no_cr; [exact Hrel|]. by apply Path_of_no_cr.
  - eexists _, _. split; [done|]. split.
    + by apply path_str_no_nl, Path_of_no_nl.
    + by apply path_str_no_cr, Path_of_no_cr.
Qed.

(** A text without carriage return is read back as it was written. *)
Lemma read_back_free content :
  no_cr content = true →
  marker_free (lines_of (content +:+ nl)) = true →
  marker_free (lines_of (universal_newlines (content +:+ nl))) = true.
Proof.
  intros Hc Hfree. rewrite universal_newlines_no_cr; [done|].
  by rewrite no_cr_app, Hc.
Qed.
End path_no_cr_facts.

Section bazelrc_again.
Implicit Types (self : KleafProjectSetter) (σ : gmap string string)
  (w k tmp : string) (K : PurePath).

Lemma bazelrc_content_no_cr K : path_no_cr K → no_cr (bazelrc_content K) = true.
Proof.
  intros HK%path_str_no_cr. unfold bazelrc_content.
  rewrite !no_cr_app, HK. reflexivity.
Qed.

(** The call of [_update_file] that [_generate_bazelrc] makes, for a
    [kleaf_repo] text without line feed and carriage return. *)
Lemma generate_bazelrc_written self w k :
  ddk_workspace self = Some w → kleaf_repo self = Some k →
  no_nl k = true → no_cr k = true →
  ∃ logs K,
    path_no_nl K ∧ path_no_cr K
    ∧ ∀ tmp σ,
        _generate_bazelrc tmp self σ =
        Outcome
          (logs ++ [_update_file_info
                      (joinpath (Path_of w) (Path_of _DEVICE_BAZELRC)) σ])
          (_update_file tmp
             (path_str (joinpath (Path_of w) (Path_of _DEVICE_BAZELRC)))
             (bazelrc_content K) σ)
          (Return ()).
Proof.
  intros Hw Hk Hnl Hcr. unfold _generate_bazelrc, _try_rel_workspace.
  rewrite Hw, Hk.
  destruct (relative_to (Path_of k) (Path_of w)) as [rel|e] eqn:Hrel.
  - eexists _, _. split; [|split; [|reflexivity]].
    + assert (path_no_nl rel) as Hrel'.
      { eapply relative_to_no_nl; [exact Hrel|]. by apply Path_of_no_nl. }
      destruct (is_absolute rel); [done|].
      apply joinpath_no_nl; [|done]. by apply Path_of_no_nl.
    + assert (path_no_cr rel) as Hrel'.
      { eapply relative_to_no_cr; [exact Hrel|]. by apply Path_of_no_cr. }
      destruct (is_absolute rel); [done|].
      apply joinpath_no_cr; [|done]. by apply Path_of_no_cr.
  - eexists _, _. split; [|split; [|reflexivity]].
    + assert (path_no_nl (Path_of k)) as Hk' by by apply Path_of_no_nl.
      destruct (is_absolute (Path_of k)); [done|].
      apply joinpath_no_nl; [|done]. by apply Path_of_no_nl.
    + assert (path_no_cr (Path_of k)) as Hk' by by apply Path_of_no_cr.
      destruct (is_absolute (Path_of k)); [done|].
      apply joinpath_no_cr; [|done]. by apply Path_of_no_cr.
Qed.
End bazelrc_again.

(** X13: running [_generate_bazelrc] again changes nothing.  Each call
    reads [device.bazelrc] with carriage returns turned into line feeds.
    When the text of [kleaf_repo] holds neither line feed nor carriage
    return, and [device.bazelrc] is missing or, as read, is empty, ends with
    a line feed or holds a begin-marker line, a second call leaves
    [device.bazelrc] as the first call wrote it. *)
Theorem generate_bazelrc_idempotent t1 t2 self w k σ :
  ddk_workspace self = Some w → kleaf_repo self = Some k →
  no_nl k = true → no_cr k = true →
  let f := path_str (joinpath (Path_of w) (Path_of _DEVICE_BAZELRC)) in
  t1 ≠ f → t2 ≠ f →
  complete (file_text (as_read f σ) f) = true
    ∨ has_begin (lines_of (file_text (as_read f σ) f)) = true →
  let once := files (_generate_bazelrc t1 self (as_read f σ)) in
  files (_generate_bazelrc t2 self (as_read f once)) !! f = once !! f.
Proof.
  intros Hw Hk Hnl Hcr f H1 H2 Hin once. subst once.
  destruct (generate_bazelrc_written self w k Hw Hk Hnl Hcr)
    as (logs & K & HK & HK' & Hform).
  rewrite !Hform. cbn [files]. fold f.
  rewrite !_update_file_lookup by done.
  rewrite file_text_as_read, file_text_update by done. f_equal.
  apply reread_last_wins; [|by rewrite file_text_as_read;
                              apply no_cr_universal_newlines|done].
  apply read_back_free; [by apply bazelrc_content_no_cr|].
  by apply bazelrc_content_free.
Qed.

Lemma generate_bazelrc_idempotent_witness :
  let self := setter_with_dirs (Some "/work/ddk") (Some "/work/ddk/kleaf") None in
  let f := "/work/ddk/device.bazelrc" in
  let σ : gmap string string :=
    {[f := "build --jobs=4" +:+ String cr_char nl]} in
  let once := files (_generate_bazelrc "/tmp/t1" self (as_read f σ)) in
  files (_generate_bazelrc "/tmp/t2" self (as_read f once)) !! f = once !! f.
Proof.
  cbv zeta.
  refine (generate_bazelrc_idempotent "/tmp/t1" "/tmp/t2" _ "/work/ddk"
            "/work/ddk/kleaf" _ _ _ _ _ _ _ _).
  - reflexivity.
  - reflexivity.
  - reflexivity.
  - reflexivity.
  - discriminate.
  - discriminate.
  - left. reflexivity.
Defined.

Section module_bazel_again.
Context `{ConfigReader}.
Implicit Types (self : KleafProjectSetter) (σ : gmap string string)
  (w k d tmp R C : string).

Lemma kleaf_dependency_no_cr R : no_cr R = true → no_cr (kleaf_dependency R) = true.
Proof.
  intros HR. unfold kleaf_dependency. rewrite !no_cr_app, HR. reflexivity.
Qed.

Lemma local_prebuilts_no_cr C R :
  no_cr C = true → no_cr R = true → no_cr (local_prebuilts C R) = true.
Proof.
  intros HC HR. unfold local_prebuilts. rewrite !no_cr_app, HC, HR.
  reflexivity.
Qed.

(** The two ways a call with a workspace ends when the configuration can
    be read: nothing to write, or one call of [_update_file] with a text
    that, read back, holds no marker line. *)
Lemma generate_module_bazel_written self w :
  ddk_workspace self = Some w →
  (∀ k, kleaf_repo self = Some k → no_nl k = true ∧ no_cr k = true) →
  (∀ d, prebuilts_dir self = Some d →
     no_nl d = true ∧ no_cr d = true
     ∧ ∃ C, read_download_configs
              (joinpath (Path_of d) (Path_of "download_configs.json"))
            = Return C
            ∧ no_nl C = true ∧ no_cr C = true) →
  let module_bazel := joinpath (Path_of w) (Path_of _MODULE_BAZEL_FILE) in
  ∃ logs,
    (kleaf_repo self = None ∧ prebuilts_dir self = None
     ∧ ∀ tmp σ,
         _generate_module_bazel tmp self σ =
         Outcome (logs ++ [(INFO, "Nothing to update in "
                                   +:+ path_str module_bazel)])
           σ (Return ()))
    ∨ (∃ content,
         marker_free (lines_of (universal_newlines (content +:+ nl))) = true
         ∧ ∀ tmp σ,
             _generate_module_bazel tmp self σ =
             Outcome (logs ++ [_update_file_info module_bazel σ])
               (_update_file tmp (path_str module_bazel) content σ)
               (Return ())).
Proof.
  intros Hw Hk Hd module_bazel. unfold _generate_module_bazel.
  rewrite Hw. fold module_bazel.
  destruct (kleaf_repo self) as [k|] eqn:Ek;
    destruct (prebuilts_dir self) as [d|] eqn:Ed.
  - destruct (Hk k eq_refl) as [Hk2 Hk3].
    destruct (try_rel_workspace_plain self w k Hw Hk2 Hk3)
      as (logs1 & rel1 & -> & Hrel1 & Hrel1').
    destruct (Hd d eq_refl) as (Hd2 & Hd3 & C & -> & HC & HC').
    destruct (try_rel_workspace_plain self w d Hw Hd2 Hd3)
      as (logs2 & rel2 & -> & Hrel2 & Hrel2').
    exists (logs1 ++ logs2). right. eexists. split; [|intros tmp σ].
    2:{ rewrite bool_decide_eq_false_2; [reflexivity|].
        intros E%str_app_eq_nil. by apply kleaf_dependency_nonempty in E. }
    apply read_back_free.
    { rewrite !no_cr_app, kleaf_dependency_no_cr, local_prebuilts_no_cr by done.
      reflexivity. }
    rewrite kleaf_dependency_unlines, local_prebuilts_unlines.
    change nl with (unlines [""]) at 1. rewrite <-!unlines_app.
    apply unlines_free. apply Forall_app. split; [by apply kleaf_lines_good|].
    apply Forall_app. split; [by repeat constructor|].
    by apply prebuilts_lines_good.
  - destruct (Hk k eq_refl) as [Hk2 Hk3].
    destruct (try_rel_workspace_plain self w k Hw Hk2 Hk3)
      as (logs1 & rel1 & -> & Hrel1 & Hrel1').
    exists logs1. right. eexists. split; [|intros tmp σ].
    2:{ rewrite bool_decide_eq_false_2; [reflexivity|].
        apply kleaf_dependency_nonempty. }
    apply read_back_free; [by apply kleaf_dependency_no_cr|].
    rewrite kleaf_dependency_unlines.
    apply unlines_free. by apply kleaf_lines_good.
  - destruct (Hd d eq_refl) as (Hd2 & Hd3 & C & -> & HC & HC').
    destruct (try_rel_workspace_plain self w d Hw Hd2 Hd3)
      as (logs2 & rel2 & -> & Hrel2 & Hrel2').
    exists ([] ++ logs2). right. eexists. split; [|intros tmp σ].
    2:{ rewrite bool_decide_eq_false_2; [reflexivity|]. done. }
    apply read_back_free.
    { rewrite !no_cr_app, local_prebuilts_no_cr by done. reflexivity. }
    rewrite local_prebuilts_unlines, str_app_nil_l.
    change nl with (unlines [""]) at 1. rewrite <-!unlines_app.
    apply unlines_free. apply Forall_app.
    split; [by repeat constructor|]. by apply prebuilts_lines_good.
  - exists []. left. split; [done|]. split; [done|]. intros tmp σ. reflexivity.
Qed.

(** X15: running [_generate_module_bazel] again changes nothing.  With
    neither [kleaf_repo] nor [prebuilts_dir] no file is opened and the
    files stay as they are.  Otherwise each call reads [MODULE.bazel] with
    carriage returns turned into line feeds: when the texts of [kleaf_repo]
    and [prebuilts_dir] and the configuration read hold neither line feed
    nor carriage return, and [MODULE.bazel] is missing or, as read, is
    empty, ends with a line feed or holds a begin-marker line, a second call
    leaves [MODULE.bazel] as the first call wrote it. *)
Theorem generate_module_bazel_idempotent t1 t2 self w σ :
  ddk_workspace self = Some w →
  (∀ k, kleaf_repo self = Some k → no_nl k = true ∧ no_cr k = true) →
  (∀ d, prebuilts_dir self = Some d →
     no_nl d = true ∧ no_cr d = true
     ∧ ∃ C, read_download_configs
              (joinpath (Path_of d) (Path_of "download_configs.json"))
            = Return C
            ∧ no_nl C = true ∧ no_cr C = true) →
  let f := path_str (joinpath (Path_of w) (Path_of _MODULE_BAZEL_FILE)) in
  t1 ≠ f → t2 ≠ f →
  (kleaf_repo self = None → prebuilts_dir self = None →
   files (_generate_module_bazel t2 self
            (files (_generate_module_bazel t1 self σ))) = σ)
  ∧ (kleaf_repo self ≠ None ∨ prebuilts_dir self ≠ None →
     complete (file_text (as_read f σ) f) = true
       ∨ has_begin (lines_of (file_text (as_read f σ) f)) = true →
     let once := files (_generate_module_bazel t1 self (as_read f σ)) in
     files (_generate_module_bazel t2 self (as_read f once)) !! f = once !! f).
Proof.
  intros Hw Hk Hd f H1 H2.
  destruct (generate_module_bazel_written self w Hw Hk Hd)
    as (logs & [(Ek & Ed & Hform)|(content & Hfree & Hform)]).
  - split; [intros _ _; by rewrite !Hform|].
    intros [Hsome|Hsome]; by destruct Hsome.
  - split.
    + intros Ek Ed. pose proof (Hform t1 σ) as Hcall.
      unfold _generate_module_bazel in *. rewrite Hw, Ek, Ed in *.
      by rewrite bool_decide_eq_true_2.
    + intros _ Hin once. subst once.
      rewrite !Hform. cbn [files]. fold f.
      rewrite !_update_file_lookup by done.
      rewrite file_text_as_read, file_text_update by done. f_equal.
      apply reread_last_wins; [done| |done].
      rewrite file_text_as_read. apply no_cr_universal_newlines.
Qed.
End module_bazel_again.

Lemma generate_module_bazel_idempotent_witness :
  let self :=
    setter_with_dirs (Some "/work/ddk") (Some "/work/ddk/kleaf")
      (Some "/work/ddk/prebuilts") in
  let f := "/work/ddk/MODULE.bazel" in
  let σ : gmap string string :=
    {[f := "module(name = 'ddk')" +:+ String cr_char nl]} in
  let once := files (@_generate_module_bazel one_config "/tmp/t1" self
                       (as_read f σ)) in
  files (@_generate_module_bazel one_config "/tmp/t2" self (as_read f once))
    !! f = once !! f.
Proof.
  cbv zeta.
  refine (proj2 (@generate_module_bazel_idempotent one_config "/tmp/t1"
                   "/tmp/t2" _ "/work/ddk" _ _ _ _ _ _) _ _).
  - reflexivity.
  - intros k [= <-]. split; reflexivity.
  - intros d [= <-]. split; [reflexivity|]. split; [reflexivity|].
    exists "'{}'". repeat split; reflexivity.
  - discriminate.
  - discriminate.
  - left. discriminate.
  - left. reflexivity.
Defined.
